(** * Spikenail: the GraphQL schema compiler of [src/lib/Spikenail.js]

    A shallow embedding of [createGraphqlSchema] and of the methods it calls
    ([buildCRUDMutation], [wrapTypeIntoConnection], [schemaToGraphqlFields],
    [schemaToMutationFields], [fieldToGraphqlType]), and of its caller
    [start] with [loadModels], [boot] and [bootDataSources], where how a
    call into a package ends ([require], require-all, [mongoose.connect]) is
    an argument.

    - A JavaScript object used as a map is an insertion-ordered association
      list ([JsObject.t]), given in the order in which [Object.keys] lists
      its keys.  A lookup reads the own properties of the object; the
      members every plain object inherits from Object.prototype, and the
      integer-like keys that [Object.keys] lists before the others, are kept
      out by hypotheses ([inheritedName], [integerLike]) of the theorems
      they bear on.
    - A statement that can raise (a member access on [undefined]) lives in the
      [Completion] monad; code that cannot raise is a plain function.
    - The configuration objects handed to graphql-js and graphql-relay
      constructors are recorded as data.  What those libraries do with them
      later (name validation, schema validation) is outside this file: the
      theorems on compiled schemas are about every schema that
      [createGraphqlSchema] returns.
    - Functions imported from packages or from files that are not part of the
      sources ([capitalize], [pluralize], [fromGlobalId], the [PageInfo] and
      [MutationError] types, a data loader's [load]) are the members of the
      class [Externals]. *)

From Stdlib Require Import String Ascii List Bool ZArith Lia.
Import ListNotations.
Local Open Scope list_scope.
Local Open Scope string_scope.

Set Warnings "-register-all".

(** ** Completions: a statement returns or throws *)

Inductive JsError : Type :=
| TypeError (message : string).

Inductive Completion (A : Type) : Type :=
| Return (value : A)
| Throw (error : JsError).

Arguments Return {A} value.
Arguments Throw {A} error.

Definition bind {A B : Type} (c : Completion A) (k : A -> Completion B) : Completion B :=
  match c with
  | Return a => k a
  | Throw e => Throw e
  end.

Notation "x <- c ;; k" := (bind c (fun x => k))
  (at level 61, c at next level, right associativity).

(** A [for (... of ...)] loop whose body may throw: the first exception leaves
    the loop. *)
Fixpoint forEach {A S : Type} (body : S -> A -> Completion S) (items : list A) (s : S)
  : Completion S :=
  match items with
  | [] => Return s
  | x :: rest => s' <- body s x ;; forEach body rest s'
  end.

Definition returns {A : Type} (c : Completion A) : bool :=
  match c with
  | Return _ => true
  | Throw _ => false
  end.

(** ** JavaScript objects used as maps *)

Module JsObject.

Definition t (A : Type) : Type := list (string * A).

(** [o[k]]; [None] is [undefined]. *)
Fixpoint get {A : Type} (o : t A) (k : string) : option A :=
  match o with
  | [] => None
  | (k', v) :: rest => if k' =? k then Some v else get rest k
  end.

(** [o[k] = v]: an existing key keeps its position, a new key goes last. *)
Fixpoint set {A : Type} (o : t A) (k : string) (v : A) : t A :=
  match o with
  | [] => [(k, v)]
  | (k', v') :: rest =>
      if k' =? k then (k', v) :: rest else (k', v') :: set rest k v
  end.

(** [delete o[k]]. *)
Definition delete {A : Type} (o : t A) (k : string) : t A :=
  filter (fun kv => negb (fst kv =? k)) o.

(** [Object.keys(o)]. *)
Definition keys {A : Type} (o : t A) : list string := map fst o.

(** The pairs [(k, o[k])] visited by [for (k of Object.keys(o)) { v = o[k]; ... }]. *)
Definition entries {A : Type} (o : t A) : list (string * A) :=
  flat_map (fun k => match get o k with Some v => [(k, v)] | None => [] end) (keys o).

(** [Object.assign(target, source)]. *)
Definition assign {A : Type} (target source : t A) : t A :=
  fold_left (fun o kv => set o (fst kv) (snd kv)) source target.

End JsObject.

(** ** JavaScript values seen by the generated resolvers *)

Inductive JsValue : Type :=
| JsUndefined
| JsNull
| JsBool (b : bool)
| JsNumber (n : Z)
| JsString (s : string)
| JsArray (items : list JsValue)
| JsObj (props : list (string * JsValue)).

(** ToBoolean. *)
Definition truthy (v : JsValue) : bool :=
  match v with
  | JsUndefined | JsNull => false
  | JsBool b => b
  | JsNumber n => negb (n =? 0)%Z
  | JsString s => negb (s =? "")
  | JsArray _ | JsObj _ => true
  end.

(** [v.k] (also what destructuring [{k}] reads): a member of [undefined] or
    [null] is a TypeError. *)
Definition member (v : JsValue) (k : string) : Completion JsValue :=
  match v with
  | JsUndefined | JsNull =>
      Throw (TypeError ("Cannot read property '" ++ k ++ "' of undefined"))
  | JsObj props =>
      Return (match JsObject.get props k with Some x => x | None => JsUndefined end)
  | JsArray items =>
      Return (if k =? "length" then JsNumber (Z.of_nat (List.length items)) else JsUndefined)
  | JsString s =>
      Return (if k =? "length" then JsNumber (Z.of_nat (String.length s)) else JsUndefined)
  | JsBool _ | JsNumber _ => Return JsUndefined
  end.

(** Truthiness of an optional string property of a descriptor. *)
Definition truthyString (o : option string) : bool :=
  match o with
  | Some s => negb (s =? "")
  | None => false
  end.

(** ** Model descriptors *)

Inductive PropertyType : Type :=
| TypeId                       (* 'id' *)
| TypeString                   (* String *)
| TypeBoolean                  (* Boolean *)
| TypeNumber                   (* Number *)
| TypeFloat                    (* 'Float' *)
| TypeObject                   (* Object *)
| TypeArray                    (* Array *)
| TypeOther (tag : string).    (* anything else *)

Record Property : Type := {
  type : PropertyType;
  relation : option string;
  ref : string;
  foreignKeyFor : option string
}.

(** [if (field.relation)]. *)
Definition isRelation (field : Property) : bool := truthyString (relation field).

(** [field.relation == kind]. *)
Definition relationIs (field : Property) (kind : string) : bool :=
  match relation field with
  | Some r => r =? kind
  | None => false
  end.

(** A function of this file or of a model, by its body over [arguments]. *)
Definition Closure : Type := list JsValue -> Completion JsValue.

Record Schema : Type := {
  name : string;
  properties : JsObject.t Property;
  resolvers : option (JsObject.t Closure)
}.

(** The first argument the generated resolvers pass to a model method. *)
Record Params : Type := {
  params_id : option JsValue;
  params_property : option Property
}.

Definition emptyParams : Params := {| params_id := None; params_property := None |}.

Record Model : Type := {
  getName : string;
  isViewer : bool;
  schema : Schema;
  getGraphqlItemArgs : JsValue;
  getGraphqlListArgs : JsValue;
  resolveViewer : Params -> Closure;
  resolveItem : Params -> Closure;
  resolveAll : Params -> Closure;
  resolveHasMany : Params -> Closure;
  resolveOne : Params -> Closure;
  (* model[`mutateAndGetPayload${suffix}`] *)
  mutateAndGetPayload : string -> Params -> Closure
}.

(** A value of the models map: a model class, or the export of an empty model
    file, which has no [getName]. *)
Inductive ModelEntry : Type :=
| EmptyModule
| ModelClass (model : Model).

Definition Models : Type := JsObject.t ModelEntry.

(** ** GraphQL types and field configurations *)

Inductive Resolver : Type :=
| Function (body : Closure)
  (* the resolver graphql-relay's globalIdField builds *)
| GlobalIdResolver (typeName : string) (idFetcher : option (JsValue -> Completion JsValue))
  (* the resolver of nodeDefinitions' nodeField, around this file's id fetcher *)
| NodeFieldResolver (idFetcher : JsValue -> JsValue -> Completion JsValue).

Inductive GraphQLType : Type :=
| GraphQLString
| GraphQLBoolean
| GraphQLInt
| GraphQLFloat
| GraphQLID
| GraphQLJSON
| NodeInterface
| ExternalType (name : string)
| GraphQLNonNull (ofType : GraphQLType)
| GraphQLList (ofType : GraphQLType)
  (* modelTypes[name]: the placeholder whose fields thunk reads modelFields[name] *)
| ModelType (name : string)
| GraphQLObjectType (name : string) (fields : list (string * FieldConfig)) (implementsNode : bool)
with FieldConfig : Type :=
| Field (type : option GraphQLType) (args : option JsValue) (resolve : option Resolver).

Definition fieldType (f : FieldConfig) : option GraphQLType :=
  match f with Field t _ _ => t end.

Definition fieldArgs (f : FieldConfig) : option JsValue :=
  match f with Field _ a _ => a end.

Definition fieldResolve (f : FieldConfig) : option Resolver :=
  match f with Field _ _ r => r end.

(** [type.name]; a wrapper type has none. *)
Definition typeName (t : GraphQLType) : option string :=
  match t with
  | GraphQLString => Some "String"
  | GraphQLBoolean => Some "Boolean"
  | GraphQLInt => Some "Int"
  | GraphQLFloat => Some "Float"
  | GraphQLID => Some "ID"
  | GraphQLJSON => Some "JSON"
  | NodeInterface => Some "Node"
  | ExternalType n => Some n
  | GraphQLNonNull _ | GraphQLList _ => None
  | ModelType n => Some n
  | GraphQLObjectType n _ _ => Some n
  end.

(** graphql-js [getNullableType]: strips a [GraphQLNonNull] wrapper. *)
Definition getNullableType (t : GraphQLType) : GraphQLType :=
  match t with
  | GraphQLNonNull inner => inner
  | _ => t
  end.

(** A string operand of [+] that may be [undefined]. *)
Definition toStringOr (o : option string) : string :=
  match o with
  | Some s => s
  | None => "undefined"
  end.

(** ** What the file imports *)

Class Externals : Type := {
  capitalize : string -> string;            (* lodash.capitalize *)
  pluralize : string -> string;             (* pluralize *)
  fromGlobalId : JsValue -> Completion JsValue;  (* graphql-relay *)
  load : JsValue -> JsValue -> Completion JsValue;  (* dataLoader.load(id) *)
  PageInfo : GraphQLType;                   (* ./types/PageInfo *)
  MutationError : GraphQLType               (* ./types/MutationError *)
}.

(** ** The configuration passed to mutationWithClientMutationId *)

Record MutationConfig : Type := {
  config_name : string;
  inputFields : JsObject.t FieldConfig;
  outputFields : JsObject.t FieldConfig;
  config_mutateAndGetPayload : Closure
}.

Record GraphQLSchema : Type := {
  (* fields of the object type 'Query' *)
  query : JsObject.t FieldConfig;
  (* fields of the object type 'Mutation', each built by mutationWithClientMutationId *)
  mutation : JsObject.t MutationConfig;
  (* the store read by the model types' fields thunks *)
  schema_modelFields : JsObject.t (JsObject.t FieldConfig);
  (* the type resolver given to nodeDefinitions *)
  schema_resolveType : JsValue -> Completion (option GraphQLType)
}.

(** ** The compiler *)

Section Compiler.

Context {ext : Externals}.

(** The models map is [this.models]: [start] calls
    [this.createGraphqlSchema(this.models)]. *)
Variable models : Models.

(** [this.models[key].method(...)]: the member access fails on [undefined],
    the call on an entry without the method. *)
Definition modelAt (key : string) : Completion Model :=
  match JsObject.get models key with
  | Some (ModelClass model) => Return model
  | Some EmptyModule => Throw (TypeError "this.models[...].getGraphqlListArgs is not a function")
  | None => Throw (TypeError "Cannot read property 'getGraphqlListArgs' of undefined")
  end.

(** graphql-relay's [globalIdField(typeName, idFetcher)]: a non-null ID field. *)
Definition globalIdField (typeName : string) (idFetcher : option (JsValue -> Completion JsValue))
  : FieldConfig :=
  Field (Some (GraphQLNonNull GraphQLID)) None (Some (GlobalIdResolver typeName idFetcher)).

(** Lines 642-677. *)
Definition fieldToGraphqlType (prop : string) (field : Property) (schema : Schema)
  : FieldConfig :=
  match type field with
  | TypeId =>
      if truthyString (foreignKeyFor field) then
        globalIdField (toStringOr (foreignKeyFor field)) (Some (fun obj => member obj prop))
      else if name schema =? "viewer" then
        globalIdField "user" None
      else
        globalIdField (name schema) None
  | TypeString => Field (Some GraphQLString) None None
  | TypeBoolean => Field (Some GraphQLBoolean) None None
  | TypeNumber => Field (Some GraphQLInt) None None
  | TypeFloat => Field (Some GraphQLFloat) None None
  | TypeObject => Field (Some GraphQLJSON) None None
  | TypeArray => Field (Some GraphQLJSON) None None
  | TypeOther _ => Field (Some GraphQLString) None None
  end.

(** Lines 464-504: the Edge and Connection types around [type]. *)
Definition wrapTypeIntoConnection (type : GraphQLType) (parentName : string)
  : Completion FieldConfig :=
  let name := toStringOr (typeName type) in
  let Edge :=
    GraphQLObjectType (parentName ++ "_" ++ name ++ "Edge")
      [("cursor", Field (Some (GraphQLNonNull GraphQLString)) None None);
       ("node", Field (Some type) None None)]
      false in
  let Connection :=
    GraphQLObjectType (parentName ++ "_" ++ name ++ "Connection")
      [("edges", Field (Some (GraphQLList Edge)) None None);
       ("pageInfo", Field (Some PageInfo) None None)]
      false in
  target <- modelAt name ;;
  Return (Field (Some Connection) (Some (getGraphqlListArgs target))
            (Some (Function (fun arguments => resolveAll target emptyParams arguments)))).

(** Lines 538-580: the field of a hasMany property. *)
Definition hasManyField (schema : Schema) (types : JsObject.t GraphQLType)
    (prop : string) (field : Property) : Completion FieldConfig :=
  let type := JsObject.get types (ref field) in
  let Edge :=
    GraphQLObjectType (name schema ++ "_" ++ prop ++ "Edge")
      [("cursor", Field (Some (GraphQLNonNull GraphQLString)) None None);
       ("node", Field type None None)]
      false in
  let Connection :=
    GraphQLObjectType (name schema ++ "_" ++ prop ++ "Connection")
      [("edges", Field (Some (GraphQLList Edge)) None None);
       ("pageInfo", Field (Some PageInfo) None None)]
      false in
  target <- modelAt (ref field) ;;
  Return (Field (Some Connection) (Some (getGraphqlListArgs target))
            (Some (Function (fun arguments =>
               resolveHasMany target
                 {| params_id := None; params_property := Some field |} arguments)))).

(** Lines 587-590: [schema.resolvers[prop].bind(this)] replaces the resolver. *)
Definition withCustomResolver (schema : Schema) (prop : string) (f : FieldConfig)
  : FieldConfig :=
  match resolvers schema with
  | Some custom =>
      match JsObject.get custom prop with
      | Some r => Field (fieldType f) (fieldArgs f) (Some (Function r))
      | None => f
      end
  | None => f
  end.

(** Lines 521-591: the body of the loop, for the property [prop] whose
    descriptor is [field]. *)
Definition graphqlFieldsStep (schema : Schema) (types : JsObject.t GraphQLType)
    (fields : JsObject.t FieldConfig) (entry : string * Property)
  : Completion (JsObject.t FieldConfig) :=
  let (prop, field) := entry in
  if isRelation field then
    if relationIs field "hasMany" then
      f <- hasManyField schema types prop field ;;
      Return (JsObject.set fields prop f)
    else Return fields   (* continue *)
  else
    Return (JsObject.set fields prop
              (withCustomResolver schema prop (fieldToGraphqlType prop field schema))).

(** Lines 514-594. *)
Definition schemaToGraphqlFields (schema : Schema) (types : JsObject.t GraphQLType)
  : Completion (JsObject.t FieldConfig) :=
  forEach (graphqlFieldsStep schema types) (JsObject.entries (properties schema)) [].

(** Lines 602-617: the body of the loop. *)
Definition mutationFieldsStep (schema : Schema) (fields : JsObject.t FieldConfig)
    (entry : string * Property) : JsObject.t FieldConfig :=
  let (prop, field) := entry in
  if isRelation field then
    fields   (* continue *)
  else
    let f := fieldToGraphqlType prop field schema in
    JsObject.set fields prop
      (Field (option_map getNullableType (fieldType f)) (fieldArgs f) (fieldResolve f)).

(** Lines 599-620. *)
Definition schemaToMutationFields (schema : Schema) : JsObject.t FieldConfig :=
  fold_left (mutationFieldsStep schema) (JsObject.entries (properties schema)) [].

(** Lines 394-404. *)
Definition successResolver (model : Model) : Closure :=
  fun arguments =>
    result <- member (nth 0 arguments JsUndefined) "result" ;;
    if negb (truthy result) then Return JsNull
    else
      id <- member result "id" ;;
      if negb (truthy id) then Return JsNull
      else resolveOne model {| params_id := Some id; params_property := None |} arguments.

(** Lines 415-421. *)
Definition errorsResolver : Closure :=
  fun arguments =>
    errors <- member (nth 0 arguments JsUndefined) "errors" ;;
    if truthy errors then
      len <- member errors "length" ;;
      if truthy len then Return errors else Return JsNull
    else Return JsNull.

(** Lines 440-442. *)
Definition removedIdResolver : Closure :=
  fun arguments =>
    result <- member (nth 0 arguments JsUndefined) "result" ;;
    member result "id".

(** Line 379. *)
Definition mutationName (action : string) (model : Model) : string :=
  action ++ capitalize (getName model).

(** Lines 379-447: the configuration of one mutation. *)
Definition mutationConfig (action : string) (model : Model)
    (types : JsObject.t GraphQLType) (viewer : option FieldConfig) : MutationConfig :=
  let mutationFields := schemaToMutationFields (schema model) in
  let mutationFields :=
    if action =? "create" then JsObject.delete mutationFields "id" else mutationFields in
  let success :=
    if (action =? "create") || (action =? "update")
    then Some (Function (successResolver model)) else None in
  let outputFields :=
    JsObject.set
      (JsObject.set [] "errors"
         (Field (Some (GraphQLList MutationError)) None (Some (Function errorsResolver))))
      (getName model)
      (Field (JsObject.get types (getName model)) None success) in
  let outputFields :=
    match viewer with
    | Some v => JsObject.set outputFields "viewer" v
    | None => outputFields
    end in
  let outputFields :=
    if action =? "remove" then
      JsObject.delete
        (JsObject.set outputFields "removedId"
           (Field (Some GraphQLString) None (Some (Function removedIdResolver))))
        (getName model)
    else outputFields in
  {| config_name := capitalize (mutationName action model);
     inputFields := mutationFields;
     outputFields := outputFields;
     config_mutateAndGetPayload :=
       fun arguments => mutateAndGetPayload model (capitalize action) emptyParams arguments |}.

(** Lines 377-454; the result is the object [{ [mutationName]: mutation }],
    where [mutation] is [mutationWithClientMutationId(config)]. *)
Definition buildCRUDMutation (action : string) (model : Model)
    (types : JsObject.t GraphQLType) (viewer : option FieldConfig)
  : JsObject.t MutationConfig :=
  [(mutationName action model, mutationConfig action model types viewer)].

(** Lines 189-200: the id fetcher given to nodeDefinitions. *)
Definition nodeIdFetcher (globalId ctx : JsValue) : Completion JsValue :=
  decoded <- fromGlobalId globalId ;;
  type <- member decoded "type" ;;
  id <- member decoded "id" ;;
  state <- member ctx "state" ;;
  dataLoaders <- member state "dataLoaders" ;;
  dataLoader <-
    match type with
    | JsString t => member dataLoaders t
    | _ => member dataLoaders "undefined"
    end ;;
  if negb (truthy dataLoader) then Return JsNull else load dataLoader id.

(** Lines 201-204: the type resolver given to nodeDefinitions. *)
Definition nodeTypeResolver (modelTypes : JsObject.t GraphQLType) (obj : JsValue)
  : Completion (option GraphQLType) :=
  constructor <- member obj "constructor" ;;
  modelName <- member constructor "modelName" ;;
  match modelName with
  | JsString n => Return (JsObject.get modelTypes n)
  | _ => Return None
  end.

Definition nodeField : FieldConfig :=
  Field (Some NodeInterface) None (Some (NodeFieldResolver nodeIdFetcher)).

(** *** First loop, lines 215-247 *)

Record Prepared : Type := {
  viewerModel : option Model;
  modelFields : JsObject.t (JsObject.t FieldConfig);
  modelTypes : JsObject.t GraphQLType
}.

Definition prepareStep (st : Prepared) (entry : string * ModelEntry) : Prepared :=
  match snd entry with
  | EmptyModule => st   (* continue *)
  | ModelClass model =>
      {| viewerModel := if isViewer model then Some model else viewerModel st;
         modelFields := JsObject.set (modelFields st) (getName model) [];
         modelTypes := JsObject.set (modelTypes st) (getName model) (ModelType (getName model)) |}
  end.

Definition prepareModelTypes : Prepared :=
  fold_left prepareStep (JsObject.entries models)
    {| viewerModel := None; modelFields := []; modelTypes := [] |}.

(** *** Lines 249-262 *)

Definition initialViewerFields (p : Prepared) : JsObject.t FieldConfig :=
  let viewerFields := [("id", globalIdField "user" None)] in
  match viewerModel p with
  | Some viewer =>
      JsObject.set viewerFields "user"
        (Field (JsObject.get (modelTypes p) "user") None
           (Some (Function (fun arguments => resolveViewer viewer emptyParams arguments))))
  | None => viewerFields
  end.

(** *** Second loop, lines 265-296 *)

Record Filled : Type := {
  filled_modelFields : JsObject.t (JsObject.t FieldConfig);
  viewerFields : JsObject.t FieldConfig;
  queryFields : JsObject.t FieldConfig
}.

(** Lines 286-294: the resolver of [get<Model>]. *)
Definition getItemResolver (model : Model) : Closure :=
  fun arguments =>
    id <- member (nth 1 arguments JsUndefined) "id" ;;
    if truthy id then
      decoded <- fromGlobalId id ;;
      localId <- member decoded "id" ;;
      resolveItem model {| params_id := Some localId; params_property := None |} arguments
    else resolveItem model emptyParams arguments.

Definition fillStep (types : JsObject.t GraphQLType) (st : Filled)
    (entry : string * ModelEntry) : Completion Filled :=
  match snd entry with
  | EmptyModule => Return st   (* continue *)
  | ModelClass model =>
      fields <- schemaToGraphqlFields (schema model) types ;;
      connection <-
        match JsObject.get types (getName model) with
        | Some graphqlType => wrapTypeIntoConnection graphqlType "viewer"
        | None => Throw (TypeError "Cannot read property 'name' of undefined")
        end ;;
      Return
        {| filled_modelFields := JsObject.set (filled_modelFields st) (getName model) fields;
           viewerFields :=
             JsObject.set (viewerFields st)
               ("all" ++ capitalize (pluralize (getName model))) connection;
           queryFields :=
             JsObject.set (queryFields st) ("get" ++ capitalize (getName model))
               (Field (JsObject.get types (getName model))
                  (Some (getGraphqlItemArgs model))
                  (Some (Function (getItemResolver model)))) |}
  end.

Definition fillModelFields (p : Prepared) : Completion Filled :=
  forEach (fillStep (modelTypes p)) (JsObject.entries models)
    {| filled_modelFields := modelFields p;
       viewerFields := initialViewerFields p;
       queryFields := [("node", nodeField)] |}.

(** *** Lines 300-313 *)

Definition viewerRoot (viewerFields : JsObject.t FieldConfig) : option FieldConfig :=
  match JsObject.keys viewerFields with
  | [] => None
  | _ :: _ =>
      Some (Field (Some (GraphQLObjectType "viewer" viewerFields true)) None
              (Some (Function (fun _ => Return (JsObj [])))))
  end.

(** *** Third loop, lines 316-334 *)

Definition mutationsStep (types : JsObject.t GraphQLType) (viewer : option FieldConfig)
    (mutationFields : JsObject.t MutationConfig) (entry : string * ModelEntry)
  : JsObject.t MutationConfig :=
  match snd entry with
  | EmptyModule => mutationFields   (* continue *)
  | ModelClass model =>
      JsObject.assign
        (JsObject.assign
           (JsObject.assign mutationFields (buildCRUDMutation "create" model types viewer))
           (buildCRUDMutation "update" model types viewer))
        (buildCRUDMutation "remove" model types viewer)
  end.

Definition buildMutations (types : JsObject.t GraphQLType) (viewer : option FieldConfig)
  : JsObject.t MutationConfig :=
  fold_left (mutationsStep types viewer) (JsObject.entries models) [].

(** Lines 177-366: the statements of the method itself.  What graphql-js
    checks inside its constructors, and inside [new GraphQLSchema] at line
    358, is not followed: there the code can still throw (a field without a
    type, two types of one name).  So a [Throw] here is a throw of the code,
    and a schema the code returns is the schema returned here; the theorems
    on compiled schemas take [createGraphqlSchema models = Return s] as a
    hypothesis. *)
Definition createGraphqlSchema : Completion GraphQLSchema :=
  let p := prepareModelTypes in
  filled <- fillModelFields p ;;
  let viewer := viewerRoot (viewerFields filled) in
  let mutationFields := buildMutations (modelTypes p) viewer in
  let queryFields :=
    match viewer with
    | Some v => JsObject.set (queryFields filled) "viewer" v
    | None => queryFields filled
    end in
  Return {| query := queryFields;
            mutation := mutationFields;
            schema_modelFields := filled_modelFields filled;
            schema_resolveType := nodeTypeResolver (modelTypes p) |}.

End Compiler.

(** ** Observations on what the compiler builds *)

(** The name of the Connection type of a connection field. *)
Definition connectionTypeName (f : FieldConfig) : option string :=
  match fieldType f with
  | Some connection => typeName connection
  | None => None
  end.

Definition objectFields (t : GraphQLType) : JsObject.t FieldConfig :=
  match t with
  | GraphQLObjectType _ fields _ => fields
  | _ => []
  end.

(** The Edge type of a connection field: the element type of its [edges]. *)
Definition edgeType (f : FieldConfig) : option GraphQLType :=
  match fieldType f with
  | Some connection =>
      match JsObject.get (objectFields connection) "edges" with
      | Some (Field (Some (GraphQLList edge)) _ _) => Some edge
      | _ => None
      end
  | None => None
  end.

Definition edgeTypeName (f : FieldConfig) : option string :=
  match edgeType f with
  | Some edge => typeName edge
  | None => None
  end.

(** The fields of the viewer root of a compiled query, when it has one. *)
Definition viewerRootFields (queryFields : JsObject.t FieldConfig)
  : option (JsObject.t FieldConfig) :=
  match JsObject.get queryFields "viewer" with
  | Some (Field (Some (GraphQLObjectType "viewer" fields _)) _ _) => Some fields
  | _ => None
  end.

Definition hasField {A : Type} (o : JsObject.t A) (k : string) : bool :=
  match JsObject.get o k with
  | Some _ => true
  | None => false
  end.

(** How a resolver answers a call with the given [arguments], for the
    resolvers that are functions of this file. *)
Definition callResolver (f : FieldConfig) (arguments : list JsValue)
  : option (Completion JsValue) :=
  match fieldResolve f with
  | Some (Function body) => Some (body arguments)
  | _ => None
  end.

(** The model classes the loops of [createGraphqlSchema] visit, in order. *)
Definition visitedModels (models : Models) : list Model :=
  flat_map (fun entry => match snd entry with
                         | ModelClass model => [model]
                         | EmptyModule => []
                         end)
           (JsObject.entries models).

Fixpoint lastOption {A : Type} (l : list A) : option A :=
  match l with
  | [] => None
  | x :: rest =>
      match lastOption rest with
      | Some y => Some y
      | None => Some x
      end
  end.

Definition isHasMany (field : Property) : bool := relationIs field "hasMany".

Definition isHasOne (field : Property) : bool := relationIs field "hasOne".

Fixpoint noUnderscore (s : string) : bool :=
  match s with
  | EmptyString => true
  | String c rest => negb (Ascii.eqb c "_") && noUnderscore rest
  end.

(** *** When compilation returns *)

(** [this.models[key]] is a model class. *)
Definition resolvesToModel (models : Models) (key : string) : bool :=
  match JsObject.get models key with
  | Some (ModelClass _) => true
  | _ => false
  end.

(** Every hasMany property of the schema refers to a key of the models map. *)
Definition hasManyRefsResolve (models : Models) (s : Schema) : bool :=
  forallb (fun entry => if isHasMany (snd entry)
                        then resolvesToModel models (ref (snd entry)) else true)
          (JsObject.entries (properties s)).

Definition modelCompiles (models : Models) (model : Model) : bool :=
  hasManyRefsResolve models (schema model) && resolvesToModel models (getName model).

Definition compilable (models : Models) : bool :=
  forallb (modelCompiles models) (visitedModels models).

Definition actions : list string := ["create"; "update"; "remove"].

(** ** Plain objects *)

(** The members every plain object inherits from Object.prototype.  A lookup
    [o[k]] on a plain object without own property [k] finds the inherited
    member for these names, and undefined for any other; an assignment to
    [__proto__] changes the prototype.  [JsObject.get] reads own properties. *)
Definition objectPrototypeNames : list string :=
  ["constructor"; "__defineGetter__"; "__defineSetter__"; "hasOwnProperty";
   "__lookupGetter__"; "__lookupSetter__"; "isPrototypeOf"; "propertyIsEnumerable";
   "toString"; "valueOf"; "__proto__"; "toLocaleString"].

Definition inheritedName (k : string) : bool :=
  existsb (String.eqb k) objectPrototypeNames.

Definition isDigit (c : ascii) : bool :=
  let n := nat_of_ascii c in ((48 <=? n) && (n <=? 57))%nat.

(** Names made of digits only.  The integer-like keys of a JavaScript object
    are among them; [Object.keys] lists those first, in ascending order, and
    the other keys after them in the order of their creation, which is the
    order [JsObject.set] keeps. *)
Definition integerLike (k : string) : bool :=
  negb (k =? "") && forallb isDigit (list_ascii_of_string k).

(** ** Concrete models *)

Module Example.

Definition toUpper (c : ascii) : ascii :=
  let n := nat_of_ascii c in
  if ((97 <=? n) && (n <=? 122))%nat then ascii_of_nat (n - 32) else c.

Definition toLower (c : ascii) : ascii :=
  let n := nat_of_ascii c in
  if ((65 <=? n) && (n <=? 90))%nat then ascii_of_nat (n + 32) else c.

Fixpoint lowerCase (s : string) : string :=
  match s with
  | EmptyString => EmptyString
  | String c rest => String (toLower c) (lowerCase rest)
  end.

(** lodash's capitalize on ASCII: first character to upper case, the
    remaining to lower case. *)
Definition lodashCapitalize (s : string) : string :=
  match s with
  | EmptyString => EmptyString
  | String c rest => String (toUpper c) (lowerCase rest)
  end.

(** Regular plurals only, which is all the examples use. *)
Definition regularPlural (s : string) : string := s ++ "s".

(** Base64, for graphql-relay's global ids. *)
Definition base64Value (c : ascii) : option nat :=
  let n := nat_of_ascii c in
  if ((65 <=? n) && (n <=? 90))%nat then Some (n - 65)
  else if ((97 <=? n) && (n <=? 122))%nat then Some (n - 71)
  else if ((48 <=? n) && (n <=? 57))%nat then Some (n + 4)
  else if (n =? 43)%nat then Some 62
  else if (n =? 47)%nat then Some 63
  else None.

(** The six-bit values of the data; the padding ends it. *)
Fixpoint sextets (s : string) : list nat :=
  match s with
  | EmptyString => []
  | String c rest =>
      match base64Value c with
      | Some v => v :: sextets rest
      | None => []
      end
  end.

Fixpoint octets (l : list nat) : list nat :=
  match l with
  | a :: b :: c :: d :: rest =>
      (a * 4 + b / 16) :: ((b mod 16) * 16 + c / 4) :: ((c mod 4) * 64 + d) :: octets rest
  | [a; b; c] => [a * 4 + b / 16; (b mod 16) * 16 + c / 4]
  | [a; b] => [a * 4 + b / 16]
  | _ => []
  end.

Definition unbase64 (s : string) : string :=
  fold_right (fun n rest => String (ascii_of_nat n) rest) EmptyString (octets (sextets s)).

(** [s.substring(0, s.indexOf(':'))] and [s.substring(s.indexOf(':') + 1)];
    without a colon the first is empty and the second is [s]. *)
Fixpoint splitAtColon (s : string) : option (string * string) :=
  match s with
  | EmptyString => None
  | String c rest =>
      if Ascii.eqb c ":" then Some (EmptyString, rest)
      else match splitAtColon rest with
           | Some (type, id) => Some (String c type, id)
           | None => None
           end
  end.

(** graphql-relay's fromGlobalId, on the base64 of ASCII text. *)
Definition relayFromGlobalId (globalId : JsValue) : Completion JsValue :=
  match globalId with
  | JsString s =>
      let unbased := unbase64 s in
      match splitAtColon unbased with
      | Some (type, id) => Return (JsObj [("type", JsString type); ("id", JsString id)])
      | None => Return (JsObj [("type", JsString ""); ("id", JsString unbased)])
      end
  | _ => Throw (TypeError "The first argument must be of type string")
  end.

(** A data loader is an object, and loading an id gives the record of that
    id. *)
Definition externals : Externals :=
  {| capitalize := lodashCapitalize;
     pluralize := regularPlural;
     fromGlobalId := relayFromGlobalId;
     load := fun _ id => Return (JsObj [("id", id)]);
     PageInfo := ExternalType "PageInfo";
     MutationError := ExternalType "MutationError" |}.

Definition scalar (t : PropertyType) : Property :=
  {| type := t; relation := None; ref := "undefined"; foreignKeyFor := None |}.

Definition foreignKey (target : string) : Property :=
  {| type := TypeId; relation := None; ref := "undefined"; foreignKeyFor := Some target |}.

Definition related (kind target : string) : Property :=
  {| type := TypeOther "undefined"; relation := Some kind; ref := target;
     foreignKeyFor := None |}.

(** A model class whose methods answer with a record of the call. *)
Definition modelClass (n : string) (viewer : bool) (props : JsObject.t Property) : Model :=
  let answer (method : string) (p : Params) : Closure :=
    fun _ => Return (JsObj [("model", JsString n); ("method", JsString method);
                            ("id", match params_id p with Some v => v | None => JsUndefined end)]) in
  {| getName := n;
     isViewer := viewer;
     schema := {| name := n; properties := props; resolvers := None |};
     getGraphqlItemArgs := JsObj [("id", JsString "ID")];
     getGraphqlListArgs := JsObj [("first", JsString "Int")];
     resolveViewer := answer "resolveViewer";
     resolveItem := answer "resolveItem";
     resolveAll := answer "resolveAll";
     resolveHasMany := answer "resolveHasMany";
     resolveOne := answer "resolveOne";
     mutateAndGetPayload := fun suffix => answer ("mutateAndGetPayload" ++ suffix) |}.

(** The model classes of the specification's example: Post and the viewer
    model User. *)
Definition Post : Model :=
  modelClass "Post" false
    [("id", scalar TypeId); ("title", scalar TypeString); ("authorId", foreignKey "User")].

Definition User : Model :=
  modelClass "User" true [("id", scalar TypeId); ("name", scalar TypeString)].

(** A post with its comments. *)
Definition Article : Model :=
  modelClass "Article" false
    [("id", scalar TypeId); ("comments", related "hasMany" "Comment")].

Definition Comment : Model :=
  modelClass "Comment" false [("id", scalar TypeId); ("text", scalar TypeString)].

Definition blog : Models := [("Article", ModelClass Article); ("Comment", ModelClass Comment)].

Definition blogTypes : JsObject.t GraphQLType :=
  [("Article", ModelType "Article"); ("Comment", ModelType "Comment")].

(** The fields compiled for Article. *)
Definition articleFields : JsObject.t FieldConfig :=
  match schemaToGraphqlFields (ext := externals) blog (schema Article) blogTypes with
  | Return fields => fields
  | Throw _ => []
  end.

(** Two schemas whose names and hasMany property names split differently
    around an underscore. *)
Definition TeamA : Model :=
  modelClass "a_b" false [("c", related "hasMany" "Comment")].

Definition TeamB : Model :=
  modelClass "a" false [("b_c", related "hasMany" "Comment")].

(** A hasOne relation to a model that does not exist, and a hasMany one. *)
Definition Orphan : Model :=
  modelClass "Orphan" false [("id", scalar TypeId); ("owner", related "hasOne" "Nobody")].

Definition orphans : Models := [("Orphan", ModelClass Orphan)].

Definition Dangling : Model :=
  modelClass "Dangling" false [("id", scalar TypeId); ("items", related "hasMany" "Nobody")].

Definition danglings : Models := [("Dangling", ModelClass Dangling)].

(** Two models flagged as viewer. *)
Definition FirstViewer : Model := modelClass "user" true [("id", scalar TypeId)].
Definition SecondViewer : Model := modelClass "admin" true [("id", scalar TypeId)].

Definition twoViewers : Models :=
  [("user", ModelClass FirstViewer); ("admin", ModelClass SecondViewer)].

(** A model without the viewer flag, alone. *)
Definition noViewer : Models := [("Comment", ModelClass Comment)].

(** Payloads of a mutate handler. *)
Definition payloadWithId : JsValue :=
  JsObj [("result", JsObj [("id", JsString "42")]); ("errors", JsArray [])].

Definition payloadWithoutId : JsValue :=
  JsObj [("result", JsObj [("title", JsString "untitled")]); ("errors", JsArray [])].

Definition payloadWithoutResult : JsValue :=
  JsObj [("errors", JsArray [JsObj [("field", JsString "title");
                                    ("message", JsString "required")]])].

End Example.

(** ** What a loop over the properties stores *)

(** One iteration of a loop that stores [stored k] under the key [k], or
    leaves the object alone when there is nothing to store. *)
Definition storesAt {V : Type} (stored : string -> option V) (acc : JsObject.t V) (k : string)
  : JsObject.t V :=
  match stored k with
  | Some v => JsObject.set acc k v
  | None => acc
  end.

(** The field the loop of [schemaToGraphqlFields] stores under [prop], read
    off one run of its body on an empty object. *)
Definition storedGraphqlField {ext : Externals} (models : Models) (s : Schema)
    (types : JsObject.t GraphQLType) (prop : string) : option FieldConfig :=
  match JsObject.get (properties s) prop with
  | Some field =>
      match graphqlFieldsStep models s types [] (prop, field) with
      | Return one => JsObject.get one prop
      | Throw _ => None
      end
  | None => None
  end.

(** The same for the loop of [schemaToMutationFields]. *)
Definition storedMutationField (s : Schema) (prop : string) : option FieldConfig :=
  match JsObject.get (properties s) prop with
  | Some field => JsObject.get (mutationFieldsStep s [] (prop, field)) prop
  | None => None
  end.

(** ** Loading the models, lines 116-135 *)

(** What require-all gives for one file of the models directory: the
    module's exports, of which [loadModels] reads [default]. *)
Record ModuleExports : Type := {
  module_default : option ModelEntry
}.

(** The body of the loop: a module without a (truthy) default export is
    skipped; [getName()] on a default export that has no such method is a
    TypeError. *)
Definition loadModelsStep (modelsMap : Models) (entry : string * ModuleExports)
  : Completion Models :=
  match module_default (snd entry) with
  | None => Return modelsMap   (* continue *)
  | Some EmptyModule =>
      Throw (TypeError "models[className].default.getName is not a function")
  | Some (ModelClass model) =>
      Return (JsObject.set modelsMap (getName model) (ModelClass model))
  end.

Definition loadModels (required : JsObject.t ModuleExports) : Completion Models :=
  forEach loadModelsStep (JsObject.entries required) [].

(** What one iteration of [loadModels] assigns to the map. *)
Definition loadAssignment (entry : string * ModuleExports) : option (string * ModelEntry) :=
  match module_default (snd entry) with
  | Some (ModelClass model) => Some (getName model, ModelClass model)
  | _ => None
  end.

(** The default exports that are model classes, in the order of the files. *)
Definition defaultModels (required : JsObject.t ModuleExports) : list Model :=
  flat_map (fun entry => match module_default (snd entry) with
                         | Some (ModelClass model) => [model]
                         | _ => []
                         end)
           (JsObject.entries required).

(** Every entry of the map is a model class stored under its own name. *)
Definition keyedByName (models : Models) : bool :=
  forallb (fun entry => match snd entry with
                        | ModelClass model => getName model =? fst entry
                        | EmptyModule => false
                        end)
          (JsObject.entries models).

(** Lines 629-632. *)
Definition isPrimaryKey (field : Property) (name : string) : bool := name =? "id".

(** ** More observations *)

(** The type of [node] in the Edge type of a connection field. *)
Definition edgeNodeType (f : FieldConfig) : option GraphQLType :=
  match edgeType f with
  | Some edge =>
      match JsObject.get (objectFields edge) "node" with
      | Some node => fieldType node
      | None => None
      end
  | None => None
  end.

Definition hasName (n : string) (model : Model) : bool := getName model =? n.

(** The value a loop of single assignments leaves under the key [k]: that of
    the last item that assigns to [k]. *)
Definition lastAssigned {A V : Type} (assigns : A -> option (string * V)) (k : string)
    (items : list A) : option V :=
  lastOption
    (flat_map (fun x => match assigns x with
                        | Some (k', v) => if k' =? k then [v] else []
                        | None => []
                        end)
              items).

Section Assignments.

Context {ext : Externals}.
Variable models : Models.
Variable types : JsObject.t GraphQLType.

(** What one iteration of the second loop assigns to [queryFields]. *)
Definition queryAssignment (entry : string * ModelEntry) : option (string * FieldConfig) :=
  match snd entry with
  | EmptyModule => None
  | ModelClass model =>
      Some ("get" ++ capitalize (getName model),
            Field (JsObject.get types (getName model))
              (Some (getGraphqlItemArgs model))
              (Some (Function (getItemResolver model))))
  end.

(** What it assigns to [viewerFields]. *)
Definition viewerAssignment (entry : string * ModelEntry) : option (string * FieldConfig) :=
  match snd entry with
  | EmptyModule => None
  | ModelClass model =>
      match JsObject.get types (getName model) with
      | Some graphqlType =>
          match wrapTypeIntoConnection models graphqlType "viewer" with
          | Return connection =>
              Some ("all" ++ capitalize (pluralize (getName model)), connection)
          | Throw _ => None
          end
      | None => None
      end
  end.

(** What it assigns to [modelFields]. *)
Definition modelFieldsAssignment (entry : string * ModelEntry)
  : option (string * JsObject.t FieldConfig) :=
  match snd entry with
  | EmptyModule => None
  | ModelClass model =>
      match schemaToGraphqlFields models (schema model) types with
      | Return fields => Some (getName model, fields)
      | Throw _ => None
      end
  end.

End Assignments.

(** ** Starting the server, lines 68-169 *)

(** A thrown value, as [boot] inspects it:
    [e instanceof Error && e.code === "MODULE_NOT_FOUND"]. *)
Record Thrown : Type := {
  thrown_isError : bool;
  thrown_code : option string;
  thrown_message : string
}.

Definition thrownOf (e : JsError) : Thrown :=
  match e with
  | TypeError msg =>
      {| thrown_isError := true; thrown_code := None; thrown_message := msg |}
  end.

(** How a call into a package, or an awaited promise, ends. *)
Inductive Settled (A : Type) : Type :=
| Fulfilled (value : A)
| Rejected (reason : Thrown).

Arguments Fulfilled {A} value.
Arguments Rejected {A} reason.

Definition isModuleNotFound (e : Thrown) : bool :=
  thrown_isError e &&
  match thrown_code e with
  | Some c => c =? "MODULE_NOT_FOUND"
  | None => false
  end.

(** Lines 164-169; [connect] is [mongoose.connect] on the connection string. *)
Definition bootDataSources (connect : JsValue -> Settled unit) (sources : JsValue)
  : Settled unit :=
  match (outer <- member sources "default" ;;
         inner <- member outer "default" ;;
         member inner "connectionString") with
  | Throw e => Rejected (thrownOf e)
  | Return connectionString => connect connectionString
  end.

(** Lines 140-157; [requireSources] is how [require(appDir + '/config/sources.js')]
    ends.  The result is what [console.error] printed and how [boot] ends. *)
Definition boot (requireSources : Settled JsValue) (connect : JsValue -> Settled unit)
  : list Thrown * Settled unit :=
  let attempt :=
    match requireSources with
    | Fulfilled sources => bootDataSources connect sources
    | Rejected e => Rejected e
    end in
  match attempt with
  | Fulfilled _ => ([], Fulfilled tt)
  | Rejected e =>
      if isModuleNotFound e then ([], Fulfilled tt)
      else ([e], Rejected e)
  end.

(** What [start] leaves behind. *)
Record Server : Type := {
  server_models : option Models;            (* this.models *)
  server_graphqlSchema : option GraphQLSchema;   (* this.graphqlSchema *)
  server_graphqlRoute : bool;               (* router.all('/graphql', ...) was called *)
  server_app : bool;                        (* this.app was assigned *)
  server_listening : bool;                  (* this.app.listen(5000, ...) was called *)
  server_consoleErrors : list Thrown        (* what console.error printed *)
}.

Section Start.

Context {ext : Externals}.

(** Lines 78-88. *)
Definition exposeSchema (models : Models) : Completion (option GraphQLSchema) :=
  match JsObject.keys models with
  | [] => Return None   (* 'No models loaded' *)
  | _ :: _ =>
      graphqlSchema <- createGraphqlSchema models ;;
      Return (Some graphqlSchema)
  end.

(** Lines 68-109; [requireAll] is how the call of require-all on the models
    directory ends. *)
Definition start (requireAll : Settled (JsObject.t ModuleExports))
    (requireSources : Settled JsValue) (connect : JsValue -> Settled unit) : Server :=
  let caught (models : option Models) (e : Thrown) :=
    {| server_models := models; server_graphqlSchema := None; server_graphqlRoute := false;
       server_app := false; server_listening := false; server_consoleErrors := [e] |} in
  match requireAll with
  | Rejected e => caught None e
  | Fulfilled required =>
      match loadModels required with
      | Throw e => caught None (thrownOf e)
      | Return models =>
          match exposeSchema models with
          | Throw e => caught (Some models) (thrownOf e)
          | Return graphqlSchema =>
              let exposed := match graphqlSchema with Some _ => true | None => false end in
              match boot requireSources connect with
              | (printed, Rejected e) =>
                  {| server_models := Some models; server_graphqlSchema := graphqlSchema;
                     server_graphqlRoute := exposed; server_app := true;
                     server_listening := false;
                     server_consoleErrors := (printed ++ [e])%list |}
              | (printed, Fulfilled _) =>
                  {| server_models := Some models; server_graphqlSchema := graphqlSchema;
                     server_graphqlRoute := exposed; server_app := true;
                     server_listening := true;
                     server_consoleErrors := printed |}
              end
          end
      end
  end.

End Start.

(** ** A concrete server *)

Module Sample.

(** A second model class that calls itself Post. *)
Definition PostDraft : Model :=
  Example.modelClass "Post" false [("id", Example.scalar TypeId)].

Definition exporting (entry : ModelEntry) : ModuleExports :=
  {| module_default := Some entry |}.

(** The files of a models directory: a helper without default export between
    the model files, and two files that export a model named Post. *)
Definition modules : JsObject.t ModuleExports :=
  [("Post", exporting (ModelClass Example.Post));
   ("helpers", {| module_default := None |});
   ("User", exporting (ModelClass Example.User));
   ("PostDraft", exporting (ModelClass PostDraft))].

Definition loaded : Models :=
  match loadModels modules with
  | Return models => models
  | Throw _ => []
  end.

(** The files of the blog: the models Article and Comment around a helper. *)
Definition blogModules : JsObject.t ModuleExports :=
  [("Article", exporting (ModelClass Example.Article));
   ("helpers", {| module_default := None |});
   ("Comment", exporting (ModelClass Example.Comment))].

Definition danglingModules : JsObject.t ModuleExports :=
  [("Dangling", exporting (ModelClass Example.Dangling))].

(** Request contexts: a loader for User only, and no loaders at all. *)
Definition contextWithUserLoader : JsValue :=
  JsObj [("state", JsObj [("dataLoaders", JsObj [("User", JsObj [])])])].

Definition contextWithoutLoaders : JsValue := JsObj [("state", JsObj [])].

(** A schema with a custom resolver for its property name. *)
Definition customName : Closure := fun _ => Return (JsString "custom").

Definition profileSchema : Schema :=
  {| name := "Profile";
     properties := [("id", Example.scalar TypeId); ("name", Example.scalar TypeString)];
     resolvers := Some [("name", customName)] |}.

Definition profileFields : JsObject.t FieldConfig :=
  match schemaToGraphqlFields (ext := Example.externals) [] profileSchema [] with
  | Return fields => fields
  | Throw _ => []
  end.

(** How requiring config/sources.js and connecting can end. *)
Definition moduleNotFound : Thrown :=
  {| thrown_isError := true; thrown_code := Some "MODULE_NOT_FOUND";
     thrown_message := "Cannot find module" |}.

Definition connectionRefused : Thrown :=
  {| thrown_isError := true; thrown_code := Some "ECONNREFUSED";
     thrown_message := "connect ECONNREFUSED" |}.

Definition sources : JsValue :=
  JsObj [("default", JsObj [("default", JsObj [("connectionString", JsString "mongodb")])])].

Definition connected : JsValue -> Settled unit := fun _ => Fulfilled tt.

Definition refused : JsValue -> Settled unit := fun _ => Rejected connectionRefused.

End Sample.

(** * Properties *)

(** ** Strings *)

Lemma eqb_false_of_neq (a b : string) : a <> b -> (a =? b) = false.
Proof. intro H. now apply String.eqb_neq. Qed.

Lemma append_length (a b : string) :
  String.length (a ++ b) = String.length a + String.length b.
Proof. induction a as [|x a IH]; simpl; [reflexivity | now rewrite IH]. Qed.

Lemma append_inj_l (a b c : string) : a ++ b = a ++ c -> b = c.
Proof. induction a as [|x a IH]; simpl; intro H; [assumption | injection H; auto]. Qed.

(** Equal lengths on the left: the concatenation splits in one way only. *)
Lemma append_inj_same_length (a a' b b' : string) :
  String.length a = String.length a' -> a ++ b = a' ++ b' -> a = a' /\ b = b'.
Proof.
  revert a'. induction a as [|x a IH]; intros [|x' a'] Hlen H; simpl in *; try discriminate.
  - split; [reflexivity | assumption].
  - injection H as Hx Hrest. injection Hlen as Hlen.
    destruct (IH a' Hlen Hrest) as [-> ->]. now subst.
Qed.

Lemma append_inj_r (a b c : string) : a ++ c = b ++ c -> a = b.
Proof.
  intro H.
  assert (Hlen : String.length a = String.length b).
  { apply (f_equal String.length) in H. rewrite !append_length in H. lia. }
  now destruct (append_inj_same_length a b c c Hlen H).
Qed.

(** ** JavaScript objects *)

Module JsObjectFacts.

Import JsObject.

Section Facts.

Context {A : Type}.
Implicit Types (o : t A) (k : string) (v : A).

Lemma get_set_eq o k v : get (set o k v) k = Some v.
Proof.
  induction o as [|[k' v'] o IH]; simpl.
  - now rewrite String.eqb_refl.
  - destruct (k' =? k) eqn:E; simpl; rewrite E; [reflexivity | exact IH].
Qed.

Lemma get_set_neq o k k' v : k <> k' -> get (set o k v) k' = get o k'.
Proof.
  intro Hne. induction o as [|[k0 v0] o IH]; simpl.
  - now rewrite (eqb_false_of_neq k k' Hne).
  - destruct (k0 =? k) eqn:E; simpl.
    + apply String.eqb_eq in E. subst k0.
      now rewrite (eqb_false_of_neq k k' Hne).
    + now rewrite IH.
Qed.

Lemma get_delete_eq o k : get (delete o k) k = None.
Proof.
  unfold delete. induction o as [|[k0 v0] o IH]; simpl; [reflexivity|].
  destruct (k0 =? k) eqn:E; simpl; [exact IH | now rewrite E].
Qed.

Lemma get_delete_neq o k k' : k <> k' -> get (delete o k) k' = get o k'.
Proof.
  intro Hne. unfold delete. induction o as [|[k0 v0] o IH]; simpl; [reflexivity|].
  destruct (k0 =? k) eqn:E; simpl.
  - apply String.eqb_eq in E. subst k0.
    now rewrite (eqb_false_of_neq k k' Hne).
  - now rewrite IH.
Qed.

Lemma get_some_in_keys o k v : get o k = Some v -> In k (keys o).
Proof.
  induction o as [|[k0 v0] o IH]; simpl; [discriminate|].
  destruct (k0 =? k) eqn:E.
  - apply String.eqb_eq in E. now left.
  - intro H. right. now apply IH.
Qed.

Lemma in_keys_get o k : In k (keys o) -> exists v, get o k = Some v.
Proof.
  induction o as [|[k0 v0] o IH]; simpl; [contradiction|].
  intros [-> | H].
  - rewrite String.eqb_refl. now exists v0.
  - destruct (k0 =? k); [now exists v0 | now apply IH].
Qed.

(** The loop over [Object.keys(o)] reads [o[k]] at every own key. *)
Lemma in_entries o k v : In (k, v) (entries o) <-> get o k = Some v.
Proof.
  unfold entries. rewrite in_flat_map. split.
  - intros [k0 [_ H]]. destruct (get o k0) eqn:E; simpl in H; [|contradiction].
    destruct H as [H|[]]. now injection H as <- <-.
  - intro H. exists k. split; [now apply get_some_in_keys with v|].
    rewrite H. now left.
Qed.

End Facts.

End JsObjectFacts.

(** ** Loops *)

Section Loops.

Context {A S : Type}.
Variable body : S -> A -> Completion S.

(** A property kept by every iteration that returns holds when the loop returns. *)
Lemma forEach_invariant (P : S -> Prop) (items : list A) :
  (forall s x s', In x items -> P s -> body s x = Return s' -> P s') ->
  forall s s', P s -> forEach body items s = Return s' -> P s'.
Proof.
  induction items as [|x items IH]; simpl; intros Hstep s s' Hs H.
  - now injection H as <-.
  - destruct (body s x) as [s1|e] eqn:E; simpl in H; [|discriminate].
    apply (IH (fun s0 y s0' Hin => Hstep s0 y s0' (or_intror Hin)) s1 s'); [|exact H].
    now apply (Hstep s x s1); [left | |].
Qed.

(** The loop returns when every iteration does. *)
Lemma forEach_returns (items : list A) :
  (forall s x, In x items -> returns (body s x) = true) ->
  forall s, returns (forEach body items s) = true.
Proof.
  induction items as [|x items IH]; simpl; intros Hstep s; [reflexivity|].
  specialize (Hstep s x (or_introl eq_refl)) as Hx.
  destruct (body s x) as [s1|e]; simpl in *; [|discriminate].
  apply IH. intros s0 y Hin. apply Hstep. now right.
Qed.

(** An iteration that throws from every state makes the loop throw. *)
Lemma forEach_throws (items : list A) (x : A) :
  In x items ->
  (forall s, returns (body s x) = false) ->
  forall s, returns (forEach body items s) = false.
Proof.
  induction items as [|y items IH]; simpl; intros Hin Hx s; [contradiction|].
  destruct Hin as [-> | Hin].
  - specialize (Hx s). destruct (body s x); simpl in *; [discriminate | reflexivity].
  - destruct (body s y) as [s1|e]; simpl; [now apply IH | reflexivity].
Qed.

End Loops.

Lemma returns_true {A : Type} (c : Completion A) :
  returns c = true -> exists a, c = Return a.
Proof. destruct c as [a|e]; simpl; [now exists a | discriminate]. Qed.

Lemma returns_false {A : Type} (c : Completion A) :
  returns c = false -> exists e, c = Throw e.
Proof. destruct c as [a|e]; simpl; [discriminate | now exists e]. Qed.

(** ** Loops that store one value per key *)

Section StoreLoops.

Import JsObject JsObjectFacts.

Context {V X : Type}.
Variable stored : string -> option V.

Lemma get_storesAt_eq acc k :
  get (storesAt stored acc k) k = match stored k with Some v => Some v | None => get acc k end.
Proof. unfold storesAt. destruct (stored k); [apply get_set_eq | reflexivity]. Qed.

Lemma get_storesAt_neq acc k p : k <> p -> get (storesAt stored acc k) p = get acc p.
Proof. intro H. unfold storesAt. destruct (stored k); [now apply get_set_neq | reflexivity]. Qed.

(** A loop whose iterations either store [stored k] under the visited key
    [k] or leave the object alone: afterwards a visited key holds what was
    stored and the other keys what they held. *)
Lemma forEach_stores (body : t V -> string * X -> Completion (t V)) (items : list (string * X)) :
  (forall acc k x acc', In (k, x) items -> body acc (k, x) = Return acc' ->
                        acc' = storesAt stored acc k) ->
  forall acc fields, forEach body items acc = Return fields ->
  forall p,
    get fields p =
    if in_dec string_dec p (map fst items)
    then match stored p with Some v => Some v | None => get acc p end
    else get acc p.
Proof.
  induction items as [|[q x] items IH]; intros Hbody acc fields Hrun p.
  - simpl in *. now injection Hrun as <-.
  - simpl in Hrun. destruct (body acc (q, x)) as [acc1|e] eqn:E; simpl in Hrun; [|discriminate].
    pose proof (Hbody acc q x acc1 (or_introl eq_refl) E) as ->.
    rewrite (IH (fun a k y a' Hin => Hbody a k y a' (or_intror Hin)) _ _ Hrun p).
    destruct (string_dec q p) as [->|Hne].
    + rewrite get_storesAt_eq.
      destruct (in_dec string_dec p (map fst items)), (in_dec string_dec p (map fst ((p, x) :: items)));
        simpl in *; try tauto; destruct (stored p); reflexivity.
    + rewrite (get_storesAt_neq _ _ _ Hne).
      destruct (in_dec string_dec p (map fst items)), (in_dec string_dec p (map fst ((q, x) :: items)));
        simpl in *; tauto.
Qed.

(** The loop without exceptions. *)
Lemma forEach_pure {A S : Type} (f : S -> A -> S) (items : list A) (s : S) :
  forEach (fun s x => Return (f s x)) items s = Return (fold_left f items s).
Proof. revert s. induction items as [|x items IH]; intro s; simpl; [reflexivity | apply IH]. Qed.

Lemma fold_left_stores (f : t V -> string * X -> t V) (items : list (string * X)) :
  (forall acc k x, In (k, x) items -> f acc (k, x) = storesAt stored acc k) ->
  forall acc p,
    get (fold_left f items acc) p =
    if in_dec string_dec p (map fst items)
    then match stored p with Some v => Some v | None => get acc p end
    else get acc p.
Proof.
  intros Hf acc p.
  apply (forEach_stores (fun s x => Return (f s x)) items).
  - intros a k x a' Hin H. injection H as <-. now apply Hf.
  - apply forEach_pure.
Qed.

End StoreLoops.

(** ** Field compilation *)

Section FieldCompilation.

Import JsObject JsObjectFacts.

Context {ext : Externals}.
Variable models : Models.

Lemma isHasMany_isRelation (field : Property) : isHasMany field = true -> isRelation field = true.
Proof.
  unfold isHasMany, relationIs, isRelation, truthyString.
  destruct (relation field) as [r|]; [|discriminate].
  intro H. apply String.eqb_eq in H. now subst r.
Qed.

Lemma isHasOne_isRelation (field : Property) : isHasOne field = true -> isRelation field = true.
Proof.
  unfold isHasOne, relationIs, isRelation, truthyString.
  destruct (relation field) as [r|]; [|discriminate].
  intro H. apply String.eqb_eq in H. now subst r.
Qed.

Lemma isHasOne_not_hasMany (field : Property) : isHasOne field = true -> isHasMany field = false.
Proof.
  unfold isHasOne, isHasMany, relationIs.
  destruct (relation field) as [r|]; [|discriminate].
  intro H. apply String.eqb_eq in H. now subst r.
Qed.

Lemma modelAt_returns (key : string) :
  returns (modelAt models key) = resolvesToModel models key.
Proof.
  unfold modelAt, resolvesToModel.
  now destruct (get models key) as [[|m]|].
Qed.

Lemma hasManyField_returns (s : Schema) (types : t GraphQLType) (prop : string) (field : Property) :
  returns (hasManyField models s types prop field) = resolvesToModel models (ref field).
Proof.
  unfold hasManyField. rewrite <- modelAt_returns.
  now destruct (modelAt models (ref field)).
Qed.

(** What one iteration of [schemaToGraphqlFields] does to the object. *)
Lemma graphqlFieldsStep_stores (s : Schema) (types : t GraphQLType) acc k x acc' :
  In (k, x) (entries (properties s)) ->
  graphqlFieldsStep models s types acc (k, x) = Return acc' ->
  acc' = storesAt (storedGraphqlField models s types) acc k.
Proof.
  intros Hin Hstep. apply in_entries in Hin.
  unfold storesAt, storedGraphqlField. rewrite Hin.
  unfold graphqlFieldsStep in *.
  destruct (isRelation x).
  - destruct (relationIs x "hasMany").
    + destruct (hasManyField models s types k x) as [f|e]; simpl in *; [|discriminate].
      injection Hstep as <-. now rewrite String.eqb_refl.
    + now injection Hstep as <-.
  - injection Hstep as <-. simpl. now rewrite String.eqb_refl.
Qed.

Lemma in_entries_keys {A : Type} (o : t A) (p : string) :
  In p (map fst (entries o)) <-> get o p <> None.
Proof.
  rewrite in_map_iff. split.
  - intros [[k v] [<- Hin]]. apply in_entries in Hin. simpl. congruence.
  - intro H. destruct (get o p) as [v|] eqn:E; [|congruence].
    exists (p, v). split; [reflexivity | now apply in_entries].
Qed.

(** The object [schemaToGraphqlFields] returns holds, under every key,
    what its loop stores there. *)
Lemma schemaToGraphqlFields_get (s : Schema) (types : t GraphQLType) fields :
  schemaToGraphqlFields models s types = Return fields ->
  forall p, get fields p = storedGraphqlField models s types p.
Proof.
  intros Hrun p. unfold schemaToGraphqlFields in Hrun.
  rewrite (forEach_stores (storedGraphqlField models s types) _ _
             (fun acc k x acc' => graphqlFieldsStep_stores s types acc k x acc') _ _ Hrun p).
  destruct (in_dec string_dec p (map fst (entries (properties s)))) as [_|Hout].
  - now destruct (storedGraphqlField models s types p).
  - simpl. unfold storedGraphqlField.
    destruct (get (properties s) p) eqn:E; [|reflexivity].
    exfalso. apply Hout. apply in_entries_keys. congruence.
Qed.

(** [schemaToGraphqlFields] returns exactly when every hasMany property
    refers to a model class. *)
Lemma schemaToGraphqlFields_returns (s : Schema) (types : t GraphQLType) :
  returns (schemaToGraphqlFields models s types) = hasManyRefsResolve models s.
Proof.
  unfold schemaToGraphqlFields, hasManyRefsResolve.
  destruct (forallb _ (entries (properties s))) eqn:E.
  - apply forEach_returns. intros acc [k x] Hin.
    rewrite forallb_forall in E. specialize (E _ Hin). simpl in E.
    unfold graphqlFieldsStep. destruct (isRelation x); [|reflexivity].
    unfold isHasMany in E. destruct (relationIs x "hasMany"); [|reflexivity].
    pose proof (hasManyField_returns s types k x) as Hr. rewrite E in Hr.
    now destruct (hasManyField models s types k x).
  - assert (Hex : exists e, In e (entries (properties s)) /\
                            isHasMany (snd e) = true /\
                            resolvesToModel models (ref (snd e)) = false).
    { clear -E. induction (entries (properties s)) as [|e l IH]; simpl in E; [discriminate|].
      apply andb_false_iff in E. destruct E as [E|E].
      - exists e. destruct (isHasMany (snd e)); [|discriminate]. now repeat split; [left|].
      - destruct (IH E) as [e' [Hin H]]. exists e'. now split; [right|]. }
    destruct Hex as [[k x] [Hin [Hmany Hmiss]]]. simpl in *.
    apply (forEach_throws _ _ (k, x) Hin). intro acc.
    unfold graphqlFieldsStep. rewrite (isHasMany_isRelation x Hmany).
    unfold isHasMany in Hmany. rewrite Hmany.
    pose proof (hasManyField_returns s types k x) as Hr. rewrite Hmiss in Hr.
    now destruct (hasManyField models s types k x).
Qed.

(** *** Mutation inputs *)

Lemma mutationFieldsStep_stores (s : Schema) acc k x :
  In (k, x) (entries (properties s)) ->
  mutationFieldsStep s acc (k, x) = storesAt (storedMutationField s) acc k.
Proof.
  intro Hin. apply in_entries in Hin.
  unfold storesAt, storedMutationField. rewrite Hin.
  unfold mutationFieldsStep. destruct (isRelation x); [reflexivity|].
  simpl. now rewrite String.eqb_refl.
Qed.

Lemma schemaToMutationFields_get (s : Schema) (p : string) :
  get (schemaToMutationFields s) p = storedMutationField s p.
Proof.
  unfold schemaToMutationFields.
  rewrite (fold_left_stores (storedMutationField s) _ _
             (fun acc k x => mutationFieldsStep_stores s acc k x) [] p).
  destruct (in_dec string_dec p (map fst (entries (properties s)))) as [_|Hout].
  - now destruct (storedMutationField s p).
  - simpl. unfold storedMutationField.
    destruct (get (properties s) p) eqn:E; [|reflexivity].
    exfalso. apply Hout. apply in_entries_keys. congruence.
Qed.

End FieldCompilation.

(** ** Schema assembly *)

Section SchemaAssembly.

Import JsObject JsObjectFacts.

Context {ext : Externals}.
Variable models : Models.

Lemma in_visitedModels (m : Model) :
  In m (visitedModels models) <-> exists k, In (k, ModelClass m) (entries models).
Proof.
  unfold visitedModels. rewrite in_flat_map. split.
  - intros [[k e] [Hin H]]. destruct e as [|m']; simpl in H; [contradiction|].
    destruct H as [->|[]]. now exists k.
  - intros [k Hin]. exists (k, ModelClass m). split; [assumption | now left].
Qed.

(** *** First loop *)

Lemma prepare_modelTypes_get (l : list (string * ModelEntry)) (st : Prepared) (m : Model) :
  (get (modelTypes st) (getName m) = Some (ModelType (getName m)) \/
   exists k, In (k, ModelClass m) l) ->
  get (modelTypes (fold_left prepareStep l st)) (getName m) = Some (ModelType (getName m)).
Proof.
  revert st. induction l as [|[k e] l IH]; intros st H; simpl.
  - destruct H as [H|[k []]]. exact H.
  - apply IH. destruct H as [H|[k' [Hin|Hin]]].
    + left. unfold prepareStep. destruct e as [|m']; simpl; [exact H|].
      destruct (string_dec (getName m') (getName m)) as [E|E].
      * rewrite E. apply get_set_eq.
      * now rewrite get_set_neq.
    + injection Hin as -> ->. left. simpl. apply get_set_eq.
    + right. now exists k'.
Qed.

Lemma modelTypes_visited (m : Model) :
  In m (visitedModels models) ->
  get (modelTypes (prepareModelTypes models)) (getName m) = Some (ModelType (getName m)).
Proof.
  intro H. apply in_visitedModels in H. unfold prepareModelTypes.
  apply prepare_modelTypes_get. now right.
Qed.

Lemma prepare_viewerModel (l : list (string * ModelEntry)) (st : Prepared) :
  viewerModel (fold_left prepareStep l st) =
  match lastOption (filter isViewer
          (flat_map (fun entry => match snd entry with
                                  | ModelClass model => [model]
                                  | EmptyModule => []
                                  end) l)) with
  | Some m => Some m
  | None => viewerModel st
  end.
Proof.
  revert st. induction l as [|[k e] l IH]; intro st; simpl; [reflexivity|].
  rewrite IH. destruct e as [|m]; simpl; [reflexivity|].
  destruct (isViewer m); simpl; now destruct (lastOption _).
Qed.

(** *** Second loop *)

Lemma wrapTypeIntoConnection_returns (type : GraphQLType) (parentName : string) :
  returns (wrapTypeIntoConnection models type parentName) =
  resolvesToModel models (toStringOr (typeName type)).
Proof.
  unfold wrapTypeIntoConnection. rewrite <- modelAt_returns.
  now destruct (modelAt models (toStringOr (typeName type))).
Qed.

Lemma fillStep_returns (types : t GraphQLType) (st : Filled) (k : string) (m : Model) :
  get types (getName m) = Some (ModelType (getName m)) ->
  returns (fillStep models types st (k, ModelClass m)) = modelCompiles models m.
Proof.
  intro Htype. unfold fillStep, modelCompiles. simpl. rewrite Htype.
  rewrite <- schemaToGraphqlFields_returns with (types := types).
  destruct (schemaToGraphqlFields models (schema m) types) as [fields|e]; simpl; [|reflexivity].
  pose proof (wrapTypeIntoConnection_returns (ModelType (getName m)) "viewer") as Hw.
  simpl in Hw. rewrite <- Hw.
  now destruct (wrapTypeIntoConnection models (ModelType (getName m)) "viewer").
Qed.

Lemma fillModelFields_returns :
  returns (fillModelFields models (prepareModelTypes models)) = compilable models.
Proof.
  unfold fillModelFields, compilable.
  destruct (forallb (modelCompiles models) (visitedModels models)) eqn:E.
  - apply forEach_returns. intros st [k e] Hin. destruct e as [|m]; [reflexivity|].
    assert (Hm : In m (visitedModels models)) by (apply in_visitedModels; now exists k).
    rewrite (fillStep_returns _ _ _ _ (modelTypes_visited m Hm)).
    rewrite forallb_forall in E. now apply E.
  - assert (Hex : exists m, In m (visitedModels models) /\ modelCompiles models m = false).
    { clear -E. induction (visitedModels models) as [|m l IH]; simpl in E; [discriminate|].
      apply andb_false_iff in E. destruct E as [E|E].
      - exists m. now split; [left|].
      - destruct (IH E) as [m' [Hin H]]. exists m'. now split; [right|]. }
    destruct Hex as [m [Hm Hbad]].
    destruct (proj1 (in_visitedModels m) Hm) as [k Hin].
    apply (forEach_throws _ _ (k, ModelClass m) Hin). intro st.
    now rewrite (fillStep_returns _ _ _ _ (modelTypes_visited m Hm)).
Qed.

(** Compilation returns a schema exactly for compilable models. *)
Lemma createGraphqlSchema_returns :
  returns (createGraphqlSchema models) = compilable models.
Proof.
  unfold createGraphqlSchema. rewrite <- fillModelFields_returns.
  now destruct (fillModelFields models (prepareModelTypes models)).
Qed.

(** The loop adds [all...] fields only: it leaves [id] and [user] alone. *)
Lemma fillModelFields_viewerFields (p : Prepared) (filled : Filled) :
  fillModelFields models p = Return filled ->
  get (viewerFields filled) "id" = get (initialViewerFields p) "id" /\
  get (viewerFields filled) "user" = get (initialViewerFields p) "user".
Proof.
  unfold fillModelFields.
  apply (forEach_invariant (fillStep models (modelTypes p))
           (fun st => get (viewerFields st) "id" = get (initialViewerFields p) "id" /\
                      get (viewerFields st) "user" = get (initialViewerFields p) "user")).
  - intros st [k e] st' _ [Hid Huser] Hstep. unfold fillStep in Hstep. cbn [snd] in Hstep.
    destruct e as [|m]; [now injection Hstep as <-|].
    destruct (schemaToGraphqlFields models (schema m) (modelTypes p));
      cbn [bind] in Hstep; [|discriminate].
    destruct (match get (modelTypes p) (getName m) with
              | Some graphqlType => wrapTypeIntoConnection models graphqlType "viewer"
              | None => Throw (TypeError "Cannot read property 'name' of undefined")
              end); cbn [bind] in Hstep; [|discriminate].
    injection Hstep as <-. cbn [viewerFields].
    rewrite !get_set_neq by discriminate. now split.
  - now split.
Qed.

Lemma initialViewerFields_id (p : Prepared) :
  get (initialViewerFields p) "id" = Some (globalIdField "user" None).
Proof. unfold initialViewerFields. now destruct (viewerModel p). Qed.

Lemma initialViewerFields_user (p : Prepared) :
  hasField (initialViewerFields p) "user" =
  match viewerModel p with Some _ => true | None => false end.
Proof. unfold initialViewerFields, hasField. now destruct (viewerModel p). Qed.

(** The viewer root is built whatever the models are: [viewerFields] always
    holds [id]. *)
Lemma viewerRoot_defined (fields : t FieldConfig) (f : FieldConfig) :
  get fields "id" = Some f ->
  viewerRoot fields =
  Some (Field (Some (GraphQLObjectType "viewer" fields true)) None
          (Some (Function (fun _ => Return (JsObj []))))).
Proof.
  intro H. apply get_some_in_keys in H. unfold viewerRoot.
  destruct (keys fields); [contradiction | reflexivity].
Qed.

(** The shape of a compiled schema. *)
Lemma createGraphqlSchema_shape (s : GraphQLSchema) :
  createGraphqlSchema models = Return s ->
  exists filled,
    fillModelFields models (prepareModelTypes models) = Return filled /\
    viewerRootFields (query s) = Some (viewerFields filled) /\
    mutation s =
      buildMutations models (modelTypes (prepareModelTypes models))
        (viewerRoot (viewerFields filled)).
Proof.
  unfold createGraphqlSchema.
  destruct (fillModelFields models (prepareModelTypes models)) as [filled|e] eqn:E;
    simpl; [|discriminate].
  intro H. injection H as <-. exists filled. split; [reflexivity|].
  destruct (fillModelFields_viewerFields _ _ E) as [Hid _].
  rewrite initialViewerFields_id in Hid.
  rewrite (viewerRoot_defined _ _ Hid). cbn [query mutation]. split; [|reflexivity].
  unfold viewerRootFields. now rewrite get_set_eq.
Qed.

End SchemaAssembly.

(** ** Mutations *)

Section Mutations.

Import JsObject JsObjectFacts.

Context {ext : Externals}.
Variable models : Models.

Lemma fold_left_invariant {A S : Type} (f : S -> A -> S) (P : S -> Prop) (items : list A) :
  (forall s x, In x items -> P s -> P (f s x)) ->
  forall s, P s -> P (fold_left f items s).
Proof.
  induction items as [|x items IH]; simpl; intros Hstep s Hs; [exact Hs|].
  apply IH.
  - intros s0 y Hin. apply Hstep. now right.
  - apply Hstep; [now left | exact Hs].
Qed.

Lemma mutationsStep_model (types : t GraphQLType) (viewer : option FieldConfig)
    (acc : t MutationConfig) (k : string) (m : Model) :
  exists c u r,
    config_name c = capitalize (mutationName "create" m) /\
    config_name u = capitalize (mutationName "update" m) /\
    config_name r = capitalize (mutationName "remove" m) /\
    mutationsStep types viewer acc (k, ModelClass m) =
    set (set (set acc (mutationName "create" m) c) (mutationName "update" m) u)
        (mutationName "remove" m) r.
Proof. do 3 eexists. repeat split; reflexivity. Qed.

(** Every key of the mutation fields is the [mutationName] of a visited
    model and an action, and its configuration is named by capitalizing it. *)
Lemma buildMutations_keys (types : t GraphQLType) (viewer : option FieldConfig)
    (k : string) (cfg : MutationConfig) :
  get (buildMutations models types viewer) k = Some cfg ->
  config_name cfg = capitalize k /\
  exists m a, In m (visitedModels models) /\ In a actions /\ k = mutationName a m.
Proof.
  unfold buildMutations. revert k cfg.
  apply (fold_left_invariant (mutationsStep types viewer)
           (fun acc => forall k cfg, get acc k = Some cfg ->
              config_name cfg = capitalize k /\
              exists m a, In m (visitedModels models) /\ In a actions /\ k = mutationName a m)).
  - intros acc [key e] Hin IH k cfg. destruct e as [|m]; [apply IH|].
    assert (Hm : In m (visitedModels models)) by (apply in_visitedModels; now exists key).
    destruct (mutationsStep_model types viewer acc key m) as [c [u [r [Hc [Hu [Hr ->]]]]]].
    destruct (string_dec (mutationName "remove" m) k) as [<-|Nr].
    { rewrite get_set_eq. intro H. injection H as <-. split; [exact Hr|].
      exists m, "remove". unfold actions. simpl. tauto. }
    rewrite (get_set_neq _ _ _ _ Nr).
    destruct (string_dec (mutationName "update" m) k) as [<-|Nu].
    { rewrite get_set_eq. intro H. injection H as <-. split; [exact Hu|].
      exists m, "update". unfold actions. simpl. tauto. }
    rewrite (get_set_neq _ _ _ _ Nu).
    destruct (string_dec (mutationName "create" m) k) as [<-|Nc].
    { rewrite get_set_eq. intro H. injection H as <-. split; [exact Hc|].
      exists m, "create". unfold actions. simpl. tauto. }
    rewrite (get_set_neq _ _ _ _ Nc). apply IH.
  - intros k cfg H. discriminate.
Qed.

Lemma hasField_set {A : Type} (o : t A) (k k' : string) (v : A) :
  hasField o k' = true -> hasField (set o k v) k' = true.
Proof.
  unfold hasField. destruct (string_dec k k') as [->|Hne].
  - now rewrite get_set_eq.
  - now rewrite get_set_neq.
Qed.

Lemma hasField_set_eq {A : Type} (o : t A) (k : string) (v : A) :
  hasField (set o k v) k = true.
Proof. unfold hasField. now rewrite get_set_eq. Qed.

Lemma mutations_present (types : t GraphQLType) (viewer : option FieldConfig)
    (l : list (string * ModelEntry)) (acc : t MutationConfig) (m : Model) (a : string) :
  In a actions ->
  (hasField acc (mutationName a m) = true \/ exists k, In (k, ModelClass m) l) ->
  hasField (fold_left (mutationsStep types viewer) l acc) (mutationName a m) = true.
Proof.
  intro Ha. revert acc. induction l as [|[key e] l IH]; intros acc H; simpl.
  - destruct H as [H|[k []]]. exact H.
  - apply IH. destruct H as [H|[k [Hin|Hin]]].
    + left. destruct e as [|m']; [exact H|].
      destruct (mutationsStep_model types viewer acc key m') as [c [u [r [_ [_ [_ ->]]]]]].
      now repeat apply hasField_set.
    + injection Hin as -> ->. left.
      destruct (mutationsStep_model types viewer acc k m) as [c [u [r [_ [_ [_ ->]]]]]].
      unfold actions in Ha. simpl in Ha.
      destruct Ha as [<-|[<-|[<-|[]]]].
      * apply hasField_set, hasField_set, hasField_set_eq.
      * apply hasField_set, hasField_set_eq.
      * apply hasField_set_eq.
    + right. now exists k.
Qed.

(** Every visited model has its three mutation fields. *)
Lemma buildMutations_present (types : t GraphQLType) (viewer : option FieldConfig)
    (m : Model) (a : string) :
  In m (visitedModels models) -> In a actions ->
  exists cfg, get (buildMutations models types viewer) (mutationName a m) = Some cfg.
Proof.
  intros Hm Ha. apply in_visitedModels in Hm.
  pose proof (mutations_present types viewer (entries models) [] m a Ha (or_intror Hm)) as H.
  unfold hasField in H. fold (buildMutations models types viewer) in H.
  destruct (get (buildMutations models types viewer) (mutationName a m)) as [cfg|];
    [now exists cfg | discriminate].
Qed.

(** The three actions have names of one length, so a mutation name splits
    into its action and its capitalized model name in one way only. *)
Lemma mutationName_inj (a1 a2 : string) (m1 m2 : Model) :
  In a1 actions -> In a2 actions ->
  mutationName a1 m1 = mutationName a2 m2 ->
  a1 = a2 /\ capitalize (getName m1) = capitalize (getName m2).
Proof.
  intros H1 H2. unfold mutationName. apply append_inj_same_length.
  unfold actions in *. simpl in *.
  destruct H1 as [<-|[<-|[<-|[]]]], H2 as [<-|[<-|[<-|[]]]]; reflexivity.
Qed.

End Mutations.

(** * The claims *)

Section SchemaClaims.

Import JsObject JsObjectFacts.

Context {ext : Externals}.

Lemma lastOption_filter {A : Type} (f : A -> bool) (l : list A) :
  match lastOption (filter f l) with Some _ => true | None => false end = existsb f l.
Proof.
  induction l as [|x l IH]; simpl; [reflexivity|].
  destruct (f x); simpl.
  - now destruct (lastOption (filter f l)).
  - exact IH.
Qed.

(** On such models the statements of [createGraphqlSchema] themselves run
    to their end. *)
Lemma compilable_returns (models : Models) :
  compilable models = true -> exists s, createGraphqlSchema models = Return s.
Proof.
  intro H. apply returns_true. now rewrite createGraphqlSchema_returns.
Qed.

(** C2 (amended).  In every schema that compilation returns, the root
    Mutation type holds, for every visited model and every action among
    create, update and remove, a field named [action ++ capitalize modelName]
    (createPost, not CreatePost); the mutation configured under that field
    is the one named [capitalize (action ++ capitalize modelName)]; the
    Mutation type has no other field; and two such field names are equal
    only for the same action and model names with the same capitalization. *)
Theorem mutation_fields_named_action_then_model (models : Models) (s : GraphQLSchema) :
  createGraphqlSchema models = Return s ->
  (forall m a, In m (visitedModels models) -> In a actions ->
     exists cfg,
       get (mutation s) (a ++ capitalize (getName m)) = Some cfg /\
       config_name cfg = capitalize (a ++ capitalize (getName m))) /\
  (forall k, In k (keys (mutation s)) ->
     exists m a, In m (visitedModels models) /\ In a actions /\
                 k = a ++ capitalize (getName m)) /\
  (forall m1 m2 a1 a2, In a1 actions -> In a2 actions ->
     a1 ++ capitalize (getName m1) = a2 ++ capitalize (getName m2) ->
     a1 = a2 /\ capitalize (getName m1) = capitalize (getName m2)).
Proof.
  intro Hs.
  destruct (createGraphqlSchema_shape models s Hs) as [filled [_ [_ Hmut]]].
  rewrite Hmut. split; [|split].
  - intros m a Hm Ha.
    destruct (buildMutations_present models (modelTypes (prepareModelTypes models))
                (viewerRoot (viewerFields filled)) m a Hm Ha) as [cfg Hget].
    exists cfg. split; [exact Hget|].
    now destruct (buildMutations_keys models _ _ _ _ Hget).
  - intros k Hk. destruct (in_keys_get _ _ Hk) as [cfg Hget].
    now destruct (buildMutations_keys models _ _ _ _ Hget).
  - intros m1 m2 a1 a2 H1 H2 Heq. exact (mutationName_inj a1 a2 m1 m2 H1 H2 Heq).
Qed.

(** C4 (amended).  When a visited model has a hasMany property whose [ref]
    is not the key of a model class in the models map, compilation throws:
    no schema is returned. *)
Theorem unresolved_hasMany_ref_throws (models : Models) (m : Model) (p : string)
    (field : Property) :
  In m (visitedModels models) ->
  get (properties (schema m)) p = Some field ->
  isHasMany field = true ->
  resolvesToModel models (ref field) = false ->
  exists e, createGraphqlSchema models = Throw e.
Proof.
  intros Hm Hp Hmany Hmiss. apply returns_false.
  rewrite createGraphqlSchema_returns. unfold compilable.
  destruct (forallb (modelCompiles models) (visitedModels models)) eqn:E; [|reflexivity].
  rewrite forallb_forall in E. specialize (E m Hm).
  unfold modelCompiles in E. apply andb_true_iff in E. destruct E as [E _].
  unfold hasManyRefsResolve in E. rewrite forallb_forall in E.
  specialize (E (p, field) (proj2 (in_entries _ _ _) Hp)). simpl in E.
  rewrite Hmany in E. congruence.
Qed.

(** C9 (amended).  The viewer model is the last visited model, in the order
    of the models map, whose descriptor marks it as viewer; the [user]
    field of the viewer root resolves through that model. *)
Theorem viewer_model_is_last_flagged (models : Models) :
  viewerModel (prepareModelTypes models) =
    lastOption (filter isViewer (visitedModels models)) /\
  forall arguments,
    match get (initialViewerFields (prepareModelTypes models)) "user" with
    | Some f => callResolver f arguments
    | None => None
    end =
    option_map (fun v => resolveViewer v emptyParams arguments)
      (lastOption (filter isViewer (visitedModels models))).
Proof.
  assert (H : viewerModel (prepareModelTypes models) =
              lastOption (filter isViewer (visitedModels models))).
  { unfold prepareModelTypes. rewrite prepare_viewerModel. cbn [viewerModel].
    fold (visitedModels models).
    now destruct (lastOption (filter isViewer (visitedModels models))). }
  split; [exact H|]. intro arguments.
  unfold initialViewerFields. rewrite H.
  now destruct (lastOption (filter isViewer (visitedModels models))).
Qed.

End SchemaClaims.

Section MutationClaims.

Import JsObject JsObjectFacts.

Context {ext : Externals}.

(** The [errors] output field, for a model that is not itself named errors. *)
Lemma outputFields_errors (action : string) (model : Model) (types : t GraphQLType)
    (viewer : option FieldConfig) :
  getName model <> "errors" ->
  get (outputFields (mutationConfig action model types viewer)) "errors" =
  Some (Field (Some (GraphQLList MutationError)) None (Some (Function errorsResolver))).
Proof.
  intro Hname. unfold mutationConfig. cbn [outputFields].
  destruct (action =? "remove"), viewer as [v|];
    repeat first [ rewrite get_delete_neq by exact Hname
                 | rewrite get_set_neq by discriminate
                 | rewrite get_set_neq by exact Hname ];
    reflexivity.
Qed.

(** C5.  In a create or update mutation the output field named after the
    model resolves through [successResolver]: to null when the payload's
    result is absent (falsy) or carries no (a falsy) id, and otherwise to
    what the model's [resolveOne] returns for that id.  (When a viewer root
    is attached, the model is not itself called viewer, the viewer root's
    own name.) *)
Theorem entity_field_resolves_null_or_refetched (action : string) (model : Model)
    (types : t GraphQLType) (viewer : option FieldConfig) :
  action = "create" \/ action = "update" ->
  viewer = None \/ getName model <> "viewer" ->
  exists cfg,
    buildCRUDMutation action model types viewer = [(mutationName action model, cfg)] /\
    get (outputFields cfg) (getName model) =
      Some (Field (get types (getName model)) None (Some (Function (successResolver model)))) /\
    (forall payload rest result,
       member payload "result" = Return result ->
       truthy result = false ->
       successResolver model (payload :: rest) = Return JsNull) /\
    (forall payload rest result id,
       member payload "result" = Return result ->
       member result "id" = Return id ->
       truthy id = false ->
       successResolver model (payload :: rest) = Return JsNull) /\
    (forall payload rest result id,
       member payload "result" = Return result ->
       truthy result = true ->
       member result "id" = Return id ->
       truthy id = true ->
       successResolver model (payload :: rest) =
       resolveOne model {| params_id := Some id; params_property := None |} (payload :: rest)).
Proof.
  intros Haction Hname. exists (mutationConfig action model types viewer).
  split; [reflexivity|]. unfold mutationConfig. cbn [outputFields].
  split; [|split; [|split]].
  - assert (Hremove : (action =? "remove") = false) by (destruct Haction; now subst).
    assert (Hsuccess : (action =? "create") || (action =? "update") = true)
      by (destruct Haction; now subst).
    rewrite Hremove, Hsuccess. destruct viewer as [v|].
    + destruct Hname as [Hnone|Hname]; [discriminate|].
      rewrite get_set_neq by congruence. apply get_set_eq.
    + apply get_set_eq.
  - intros payload rest result Hres Hfalsy. unfold successResolver. cbn [nth].
    rewrite Hres. cbn [bind]. now rewrite Hfalsy.
  - intros payload rest result id Hres Hid Hfalsy. unfold successResolver. cbn [nth].
    rewrite Hres. cbn [bind]. destruct (truthy result); [|reflexivity].
    cbn [negb]. rewrite Hid. cbn [bind]. now rewrite Hfalsy.
  - intros payload rest result id Hres Htruthy Hid Hidtruthy. unfold successResolver.
    cbn [nth]. rewrite Hres. cbn [bind]. rewrite Htruthy. cbn [negb].
    rewrite Hid. cbn [bind]. now rewrite Hidtruthy.
Qed.

(** C6.  In a remove mutation of a model (whose name is neither errors nor
    removedId, the names of the two fields themselves), the output fields
    hold [removedId], which resolves to the [id] of the payload's result,
    and [errors]; there is no output field named after the model. *)
Theorem remove_outputs_removedId_without_entity (model : Model) (types : t GraphQLType)
    (viewer : option FieldConfig) :
  getName model <> "errors" ->
  getName model <> "removedId" ->
  exists cfg,
    buildCRUDMutation "remove" model types viewer = [(mutationName "remove" model, cfg)] /\
    get (outputFields cfg) "removedId" =
      Some (Field (Some GraphQLString) None (Some (Function removedIdResolver))) /\
    get (outputFields cfg) "errors" =
      Some (Field (Some (GraphQLList MutationError)) None (Some (Function errorsResolver))) /\
    get (outputFields cfg) (getName model) = None /\
    (forall payload rest result,
       member payload "result" = Return result ->
       removedIdResolver (payload :: rest) = member result "id") /\
    (forall payload rest props,
       member payload "result" = Return (JsObj props) ->
       removedIdResolver (payload :: rest) =
       Return (match get props "id" with Some id => id | None => JsUndefined end)).
Proof.
  intros Herrors Hremoved. exists (mutationConfig "remove" model types viewer).
  split; [reflexivity|]. split; [|split; [|split; [|split]]].
  - unfold mutationConfig. cbn [outputFields].
    rewrite String.eqb_refl. rewrite get_delete_neq by exact Hremoved. apply get_set_eq.
  - exact (outputFields_errors "remove" model types viewer Herrors).
  - unfold mutationConfig. cbn [outputFields].
    rewrite String.eqb_refl. apply get_delete_eq.
  - intros payload rest result Hres. unfold removedIdResolver. cbn [nth].
    now rewrite Hres.
  - intros payload rest props Hres. unfold removedIdResolver. cbn [nth].
    now rewrite Hres.
Qed.

(** C7 (amended).  Every generated mutation of a model not itself named
    errors has the output field [errors]; it resolves to the list of errors
    of the payload when that list is not empty, and to null, not to an
    empty list, when the list is empty or absent. *)
Theorem errors_field_resolves_list_or_null (action : string) (model : Model)
    (types : t GraphQLType) (viewer : option FieldConfig) :
  getName model <> "errors" ->
  exists cfg,
    buildCRUDMutation action model types viewer = [(mutationName action model, cfg)] /\
    get (outputFields cfg) "errors" =
      Some (Field (Some (GraphQLList MutationError)) None (Some (Function errorsResolver))) /\
    (forall payload rest first others,
       member payload "errors" = Return (JsArray (first :: others)) ->
       errorsResolver (payload :: rest) = Return (JsArray (first :: others))) /\
    (forall payload rest,
       member payload "errors" = Return (JsArray []) ->
       errorsResolver (payload :: rest) = Return JsNull) /\
    (forall payload rest errors,
       member payload "errors" = Return errors ->
       truthy errors = false ->
       errorsResolver (payload :: rest) = Return JsNull).
Proof.
  intro Hname. exists (mutationConfig action model types viewer).
  split; [reflexivity|]. split; [|split; [|split]].
  - exact (outputFields_errors action model types viewer Hname).
  - intros payload rest first others Herr. unfold errorsResolver. cbn [nth].
    rewrite Herr. reflexivity.
  - intros payload rest Herr. unfold errorsResolver. cbn [nth]. now rewrite Herr.
  - intros payload rest errors Herr Hfalsy. unfold errorsResolver. cbn [nth].
    rewrite Herr. cbn [bind]. now rewrite Hfalsy.
Qed.

End MutationClaims.

Section FieldClaims.

Import JsObject JsObjectFacts.

Context {ext : Externals}.

Lemma storedMutationField_eq (s : Schema) (p : string) :
  storedMutationField s p =
  match get (properties s) p with
  | Some field =>
      if isRelation field then None
      else
        let q := fieldToGraphqlType p field s in
        Some (Field (option_map getNullableType (fieldType q)) (fieldArgs q) (fieldResolve q))
  | None => None
  end.
Proof.
  unfold storedMutationField. destruct (get (properties s) p) as [field|]; [|reflexivity].
  unfold mutationFieldsStep. destruct (isRelation field); [reflexivity|].
  cbn zeta. apply get_set_eq.
Qed.

Lemma storedGraphqlField_scalar (models : Models) (s : Schema) (types : t GraphQLType)
    (p : string) (field : Property) :
  get (properties s) p = Some field ->
  isRelation field = false ->
  storedGraphqlField models s types p =
  Some (withCustomResolver s p (fieldToGraphqlType p field s)).
Proof.
  intros Hp Hrel. unfold storedGraphqlField. rewrite Hp.
  unfold graphqlFieldsStep. rewrite Hrel. apply get_set_eq.
Qed.

Lemma fieldType_withCustomResolver (s : Schema) (p : string) (f : FieldConfig) :
  fieldType (withCustomResolver s p f) = fieldType f.
Proof.
  unfold withCustomResolver. destruct (resolvers s) as [custom|]; [|reflexivity].
  now destruct (get custom p).
Qed.

(** A compiled property is a non-null ID or a plain scalar. *)
Lemma fieldToGraphqlType_nullable (p : string) (field : Property) (s : Schema) (inner : GraphQLType) :
  option_map getNullableType (fieldType (fieldToGraphqlType p field s))
  <> Some (GraphQLNonNull inner).
Proof.
  unfold fieldToGraphqlType.
  destruct (type field); try (simpl; discriminate).
  destruct (truthyString (foreignKeyFor field)); [simpl; discriminate|].
  destruct (name s =? "viewer"); simpl; discriminate.
Qed.

(** C8.  The input fields of a generated mutation are exactly the
    non-relation properties of the model's schema, without [id] for the
    create action; each has the nullable form of the type of the query
    field compiled for the same property, so no input field is non-null. *)
Theorem mutation_inputs_are_nullable_scalars (action : string) (model : Model)
    (types : t GraphQLType) (viewer : option FieldConfig) :
  exists cfg,
    buildCRUDMutation action model types viewer = [(mutationName action model, cfg)] /\
    (forall p,
       get (inputFields cfg) p =
       if (action =? "create") && (p =? "id") then None
       else match get (properties (schema model)) p with
            | Some field =>
                if isRelation field then None
                else
                  let q := fieldToGraphqlType p field (schema model) in
                  Some (Field (option_map getNullableType (fieldType q))
                          (fieldArgs q) (fieldResolve q))
            | None => None
            end) /\
    (forall models queryTypes fields p input,
       schemaToGraphqlFields models (schema model) queryTypes = Return fields ->
       get (inputFields cfg) p = Some input ->
       exists queryField,
         get fields p = Some queryField /\
         fieldType input = option_map getNullableType (fieldType queryField)) /\
    (forall p input inner,
       get (inputFields cfg) p = Some input ->
       fieldType input <> Some (GraphQLNonNull inner)).
Proof.
  exists (mutationConfig action model types viewer). split; [reflexivity|].
  assert (Hget : forall p,
    get (inputFields (mutationConfig action model types viewer)) p =
    if (action =? "create") && (p =? "id") then None
    else match get (properties (schema model)) p with
         | Some field =>
             if isRelation field then None
             else
               let q := fieldToGraphqlType p field (schema model) in
               Some (Field (option_map getNullableType (fieldType q))
                       (fieldArgs q) (fieldResolve q))
         | None => None
         end).
  { intro p. unfold mutationConfig. cbn [inputFields].
    destruct (action =? "create"); cbn [andb].
    - destruct (string_dec "id" p) as [<-|Hne].
      + rewrite String.eqb_refl. apply get_delete_eq.
      + rewrite get_delete_neq by exact Hne.
        rewrite (eqb_false_of_neq p "id") by congruence.
        rewrite schemaToMutationFields_get. apply storedMutationField_eq.
    - rewrite schemaToMutationFields_get. apply storedMutationField_eq. }
  split; [exact Hget|]. split.
  - intros models queryTypes fields p input Hrun Hin. rewrite Hget in Hin.
    destruct ((action =? "create") && (p =? "id")); [discriminate|].
    destruct (get (properties (schema model)) p) as [field|] eqn:Hp; [|discriminate].
    destruct (isRelation field) eqn:Hrel; [discriminate|].
    injection Hin as <-.
    exists (withCustomResolver (schema model) p (fieldToGraphqlType p field (schema model))).
    split.
    + rewrite (schemaToGraphqlFields_get models _ _ _ Hrun).
      now apply storedGraphqlField_scalar.
    + now rewrite fieldType_withCustomResolver.
  - intros p input inner Hin. rewrite Hget in Hin.
    destruct ((action =? "create") && (p =? "id")); [discriminate|].
    destruct (get (properties (schema model)) p) as [field|]; [|discriminate].
    destruct (isRelation field); [discriminate|].
    injection Hin as <-. apply fieldToGraphqlType_nullable.
Qed.

(** C10.  A property whose relation is hasOne is skipped: the iteration of
    [schemaToGraphqlFields] on it returns the fields unchanged without an
    error, the compiled fields of the schema hold no field under its name
    (and compilation of the schema returns whenever its hasMany references
    resolve), and the mutation input fields hold none either. *)
Theorem hasOne_properties_are_skipped (models : Models) (s : Schema)
    (types : t GraphQLType) (p : string) (field : Property) :
  get (properties s) p = Some field ->
  isHasOne field = true ->
  (forall acc, graphqlFieldsStep models s types acc (p, field) = Return acc) /\
  (forall fields, schemaToGraphqlFields models s types = Return fields ->
                  get fields p = None) /\
  (hasManyRefsResolve models s = true ->
   exists fields, schemaToGraphqlFields models s types = Return fields /\
                  get fields p = None) /\
  get (schemaToMutationFields s) p = None.
Proof.
  intros Hp Hone.
  pose proof (isHasOne_isRelation field Hone) as Hrel.
  pose proof (isHasOne_not_hasMany field Hone) as Hmany. unfold isHasMany in Hmany.
  assert (Hstep : forall acc, graphqlFieldsStep models s types acc (p, field) = Return acc).
  { intro acc. unfold graphqlFieldsStep. now rewrite Hrel, Hmany. }
  assert (Hnone : forall fields, schemaToGraphqlFields models s types = Return fields ->
                                 get fields p = None).
  { intros fields Hrun. rewrite (schemaToGraphqlFields_get models _ _ _ Hrun).
    unfold storedGraphqlField. rewrite Hp, Hstep. reflexivity. }
  repeat split; try assumption.
  - intro Hrefs. rewrite <- (schemaToGraphqlFields_returns models s types) in Hrefs.
    destruct (returns_true _ Hrefs) as [fields Hrun].
    exists fields. split; [exact Hrun | now apply Hnone].
  - rewrite schemaToMutationFields_get, storedMutationField_eq, Hp. now rewrite Hrel.
Qed.

(** The owner and the element split at the first underscore when the owner
    has none. *)
Lemma underscore_split (o1 o2 e1 e2 : string) :
  noUnderscore o1 = true -> noUnderscore o2 = true ->
  o1 ++ "_" ++ e1 = o2 ++ "_" ++ e2 -> o1 = o2 /\ e1 = e2.
Proof.
  revert o2. induction o1 as [|c o1 IH]; intros [|c' o2] H1 H2 Heq; simpl in *.
  - injection Heq as Heq. now split.
  - injection Heq as Hc Heq. subst c'. discriminate.
  - injection Heq as Hc Heq. subst c. discriminate.
  - injection Heq as Hc Heq. subst c'.
    apply andb_true_iff in H1, H2. destruct H1 as [_ H1], H2 as [_ H2].
    destruct (IH o2 H1 H2 Heq) as [-> ->]. now split.
Qed.

Lemma owner_element_split (o1 o2 e1 e2 suffix : string) :
  noUnderscore o1 = true -> noUnderscore o2 = true ->
  Some (o1 ++ "_" ++ e1 ++ suffix) = Some (o2 ++ "_" ++ e2 ++ suffix) ->
  o1 = o2 /\ e1 = e2.
Proof.
  intros H1 H2 Heq. assert (H : o1 ++ "_" ++ e1 ++ suffix = o2 ++ "_" ++ e2 ++ suffix)
    by congruence.
  destruct (underscore_split o1 o2 (e1 ++ suffix) (e2 ++ suffix) H1 H2 H) as [-> He].
  split; [reflexivity | now apply append_inj_r in He].
Qed.

Lemma same_owner_split (owner e1 e2 suffix : string) :
  Some (owner ++ "_" ++ e1 ++ suffix) = Some (owner ++ "_" ++ e2 ++ suffix) -> e1 = e2.
Proof.
  intro Heq. assert (H : owner ++ "_" ++ e1 ++ suffix = owner ++ "_" ++ e2 ++ suffix)
    by congruence.
  apply append_inj_l in H. apply (append_inj_l "_") in H. now apply append_inj_r in H.
Qed.

Lemma hasMany_names (models : Models) (s : Schema) (types : t GraphQLType)
    (fields : t FieldConfig) (p : string) (field : Property) :
  schemaToGraphqlFields models s types = Return fields ->
  get (properties s) p = Some field ->
  isHasMany field = true ->
  exists f,
    get fields p = Some f /\
    connectionTypeName f = Some (name s ++ "_" ++ p ++ "Connection") /\
    edgeTypeName f = Some (name s ++ "_" ++ p ++ "Edge").
Proof.
  intros Hrun Hp Hmany.
  pose proof (schemaToGraphqlFields_get models _ _ _ Hrun p) as Hget.
  unfold storedGraphqlField in Hget. rewrite Hp in Hget.
  unfold graphqlFieldsStep in Hget. rewrite (isHasMany_isRelation field Hmany) in Hget.
  unfold isHasMany in Hmany. rewrite Hmany in Hget.
  assert (Hok : returns (hasManyField models s types p field) = true).
  { rewrite hasManyField_returns.
    pose proof (schemaToGraphqlFields_returns models s types) as Hr.
    rewrite Hrun in Hr. simpl in Hr. symmetry in Hr.
    unfold hasManyRefsResolve in Hr. rewrite forallb_forall in Hr.
    specialize (Hr (p, field) (proj2 (in_entries _ _ _) Hp)). simpl in Hr.
    unfold isHasMany in Hr. now rewrite Hmany in Hr. }
  unfold hasManyField in *. destruct (modelAt models (ref field)) as [target|e];
    [|discriminate]. cbn [bind] in Hget. rewrite get_set_eq in Hget.
  eexists. split; [exact Hget|]. split; reflexivity.
Qed.

Lemma wrap_names (models : Models) (type : GraphQLType) (parentName : string) (f : FieldConfig) :
  wrapTypeIntoConnection models type parentName = Return f ->
  connectionTypeName f = Some (parentName ++ "_" ++ toStringOr (typeName type) ++ "Connection") /\
  edgeTypeName f = Some (parentName ++ "_" ++ toStringOr (typeName type) ++ "Edge").
Proof.
  unfold wrapTypeIntoConnection.
  destruct (modelAt models (toStringOr (typeName type))) as [target|e]; [|discriminate].
  cbn [bind]. intro H. injection H as <-. split; reflexivity.
Qed.

(** C1 (amended).  A root list-all field, built by [wrapTypeIntoConnection]
    with the owner context viewer, has Connection and Edge types named
    owner context, underscore, name of the element type, suffix.  A hasMany
    property has them named after the owning schema and the property:
    schema name, underscore, property name, suffix; the name of the element
    type is not part of it.  Two hasMany properties whose schema names hold
    no underscore get the same Connection (or Edge) name only when schema
    name and property name are the same, and two list-all fields only for
    the same element type name. *)
Theorem connection_type_names (models : Models) :
  (forall type parentName f,
     wrapTypeIntoConnection models type parentName = Return f ->
     connectionTypeName f =
       Some (parentName ++ "_" ++ toStringOr (typeName type) ++ "Connection") /\
     edgeTypeName f = Some (parentName ++ "_" ++ toStringOr (typeName type) ++ "Edge")) /\
  (forall s types fields p field,
     schemaToGraphqlFields models s types = Return fields ->
     get (properties s) p = Some field ->
     isHasMany field = true ->
     exists f,
       get fields p = Some f /\
       connectionTypeName f = Some (name s ++ "_" ++ p ++ "Connection") /\
       edgeTypeName f = Some (name s ++ "_" ++ p ++ "Edge")) /\
  (forall s1 s2 types1 types2 fields1 fields2 p1 p2 field1 field2 f1 f2,
     schemaToGraphqlFields models s1 types1 = Return fields1 ->
     schemaToGraphqlFields models s2 types2 = Return fields2 ->
     get (properties s1) p1 = Some field1 -> isHasMany field1 = true ->
     get (properties s2) p2 = Some field2 -> isHasMany field2 = true ->
     get fields1 p1 = Some f1 -> get fields2 p2 = Some f2 ->
     noUnderscore (name s1) = true -> noUnderscore (name s2) = true ->
     connectionTypeName f1 = connectionTypeName f2 \/ edgeTypeName f1 = edgeTypeName f2 ->
     name s1 = name s2 /\ p1 = p2) /\
  (forall type1 type2 f1 f2,
     wrapTypeIntoConnection models type1 "viewer" = Return f1 ->
     wrapTypeIntoConnection models type2 "viewer" = Return f2 ->
     connectionTypeName f1 = connectionTypeName f2 \/ edgeTypeName f1 = edgeTypeName f2 ->
     toStringOr (typeName type1) = toStringOr (typeName type2)).
Proof.
  split; [|split; [|split]].
  - intros type parentName f. apply wrap_names.
  - intros s types fields p field. apply hasMany_names.
  - intros s1 s2 types1 types2 fields1 fields2 p1 p2 field1 field2 f1 f2
           Hrun1 Hrun2 Hp1 Hm1 Hp2 Hm2 Hf1 Hf2 Hu1 Hu2 Hsame.
    destruct (hasMany_names models s1 types1 fields1 p1 field1 Hrun1 Hp1 Hm1)
      as [g1 [Hg1 [Hc1 He1]]].
    destruct (hasMany_names models s2 types2 fields2 p2 field2 Hrun2 Hp2 Hm2)
      as [g2 [Hg2 [Hc2 He2]]].
    rewrite Hf1 in Hg1. injection Hg1 as <-. rewrite Hf2 in Hg2. injection Hg2 as <-.
    rewrite Hc1, Hc2, He1, He2 in Hsame.
    destruct Hsame as [H|H].
    + exact (owner_element_split _ _ _ _ "Connection" Hu1 Hu2 H).
    + exact (owner_element_split _ _ _ _ "Edge" Hu1 Hu2 H).
  - intros type1 type2 f1 f2 H1 H2 Hsame.
    destruct (wrap_names models type1 "viewer" f1 H1) as [Hc1 He1].
    destruct (wrap_names models type2 "viewer" f2 H2) as [Hc2 He2].
    rewrite Hc1, Hc2, He1, He2 in Hsame.
    destruct Hsame as [H|H].
    + exact (same_owner_split "viewer" _ _ "Connection" H).
    + exact (same_owner_split "viewer" _ _ "Edge" H).
Qed.

End FieldClaims.

(** * The claims on concrete models *)

Section Concrete.

Import JsObject.

Local Existing Instance Example.externals.

Lemma not_owner_then_element (prefix rest element : string) :
  String.length rest = String.length element ->
  rest <> element ->
  forall owner, Some (prefix ++ rest) <> Some (owner ++ element).
Proof.
  intros Hlen Hne owner H. assert (Heq : prefix ++ rest = owner ++ element) by congruence.
  assert (Hprefix : String.length prefix = String.length owner).
  { apply (f_equal String.length) in Heq. rewrite !append_length in Heq. lia. }
  destruct (append_inj_same_length _ _ _ _ Hprefix Heq) as [_ Habs]. contradiction.
Qed.

(** C1, as stated, fails.  The hasMany property comments of Article, whose
    element type is Comment, gets the names Article_commentsConnection and
    Article_commentsEdge: no owner context followed by an underscore, the
    element type's name Comment and the suffix gives them.  And the two
    distinct pairs (a_b, c) and (a, b_c) get the same names. *)
Lemma hasMany_names_use_property_not_element_type :
  (exists fields f,
     schemaToGraphqlFields Example.blog (schema Example.Article) Example.blogTypes
       = Return fields /\
     get fields "comments" = Some f /\
     connectionTypeName f = Some "Article_commentsConnection" /\
     edgeTypeName f = Some "Article_commentsEdge" /\
     (forall owner, connectionTypeName f <> Some (owner ++ "_" ++ "Comment" ++ "Connection")) /\
     (forall owner, edgeTypeName f <> Some (owner ++ "_" ++ "Comment" ++ "Edge"))) /\
  (exists fields1 fields2 f1 f2,
     schemaToGraphqlFields Example.blog (schema Example.TeamA) Example.blogTypes
       = Return fields1 /\
     schemaToGraphqlFields Example.blog (schema Example.TeamB) Example.blogTypes
       = Return fields2 /\
     get fields1 "c" = Some f1 /\
     get fields2 "b_c" = Some f2 /\
     (name (schema Example.TeamA), "c") <> (name (schema Example.TeamB), "b_c") /\
     connectionTypeName f1 = connectionTypeName f2 /\
     edgeTypeName f1 = edgeTypeName f2).
Proof.
  split.
  - do 2 eexists. split; [reflexivity|]. split; [reflexivity|].
    split; [reflexivity|]. split; [reflexivity|]. split.
    + intro owner.
      exact (not_owner_then_element "Article_" "commentsConnection" "_CommentConnection"
               eq_refl ltac:(discriminate) owner).
    + intro owner.
      exact (not_owner_then_element "Article_" "commentsEdge" "_CommentEdge"
               eq_refl ltac:(discriminate) owner).
  - do 4 eexists. split; [reflexivity|]. split; [reflexivity|].
    split; [reflexivity|]. split; [reflexivity|].
    split; [discriminate|]. split; reflexivity.
Qed.

Lemma connection_type_names_witness :
  (exists f,
     wrapTypeIntoConnection Example.blog (ModelType "Comment") "viewer" = Return f /\
     connectionTypeName f = Some "viewer_CommentConnection" /\
     edgeTypeName f = Some "viewer_CommentEdge") /\
  (exists f,
     get Example.articleFields "comments" = Some f /\
     connectionTypeName f = Some "Article_commentsConnection" /\
     edgeTypeName f = Some "Article_commentsEdge").
Proof.
  split.
  - eexists. split; [reflexivity|].
    exact (proj1 (connection_type_names Example.blog) (ModelType "Comment") "viewer" _ eq_refl).
  - exact (proj1 (proj2 (connection_type_names Example.blog))
             (schema Example.Article) Example.blogTypes Example.articleFields
             "comments" (Example.related "hasMany" "Comment") eq_refl eq_refl eq_refl).
Defined.

(** C2, as stated, fails.  For the models user and admin the fields of the
    Mutation type are createUser, ..., removeAdmin: there is no field
    CreateUser, and none named by capitalizing create followed by the
    capitalized model name. *)
Lemma mutation_fields_are_not_capitalized :
  exists s,
    createGraphqlSchema Example.twoViewers = Return s /\
    keys (mutation s) =
      ["createUser"; "updateUser"; "removeUser";
       "createAdmin"; "updateAdmin"; "removeAdmin"] /\
    hasField (mutation s) "CreateUser" = false /\
    hasField (mutation s) (capitalize ("create" ++ capitalize "user")) = false.
Proof. eexists. repeat split; reflexivity. Qed.

Lemma mutation_fields_witness :
  exists s,
    createGraphqlSchema Example.blog = Return s /\
    exists cfg,
      get (mutation s) "removeComment" = Some cfg /\
      config_name cfg = capitalize "removeComment".
Proof.
  destruct (compilable_returns Example.blog eq_refl) as [s Hs].
  exists s. split; [exact Hs|].
  apply (proj1 (mutation_fields_named_action_then_model Example.blog s Hs)
           Example.Comment "remove"); simpl; tauto.
Defined.

(** C3, as stated, fails.  No model is flagged as viewer, and the compiled
    Query still has the viewer root, with the fields id and allComments. *)
Lemma viewer_root_without_viewer_model :
  existsb isViewer (visitedModels Example.noViewer) = false /\
  exists s fields,
    createGraphqlSchema Example.noViewer = Return s /\
    keys (query s) = ["node"; "getComment"; "viewer"] /\
    viewerRootFields (query s) = Some fields /\
    keys fields = ["id"; "allComments"].
Proof. split; [reflexivity|]. do 2 eexists. repeat split; reflexivity. Qed.

(** C4, as stated, fails.  The property owner of Orphan is a relation whose
    ref, Nobody, names no model, and compilation returns a schema. *)
Lemma unresolved_hasOne_ref_compiles :
  get Example.orphans "Nobody" = None /\
  get (properties (schema Example.Orphan)) "owner" = Some (Example.related "hasOne" "Nobody") /\
  isRelation (Example.related "hasOne" "Nobody") = true /\
  exists s,
    createGraphqlSchema Example.orphans = Return s /\
    keys (query s) = ["node"; "getOrphan"; "viewer"].
Proof. repeat split. eexists. split; reflexivity. Qed.

Lemma unresolved_hasMany_ref_witness :
  exists e, createGraphqlSchema Example.danglings = Throw e.
Proof.
  apply (unresolved_hasMany_ref_throws Example.danglings Example.Dangling "items"
           (Example.related "hasMany" "Nobody")).
  - simpl. tauto.
  - reflexivity.
  - reflexivity.
  - reflexivity.
Defined.

Lemma entity_field_witness :
  exists cfg entity,
    buildCRUDMutation "update" Example.Post [("Post", ModelType "Post")]
      (viewerRoot [("id", globalIdField "user" None)])
      = [("updatePost", cfg)] /\
    get (outputFields cfg) "Post" = Some entity /\
    callResolver entity [Example.payloadWithoutResult] = Some (Return JsNull) /\
    callResolver entity [Example.payloadWithoutId] = Some (Return JsNull) /\
    callResolver entity [Example.payloadWithId] =
      Some (resolveOne Example.Post
              {| params_id := Some (JsString "42"); params_property := None |}
              [Example.payloadWithId]).
Proof.
  destruct (entity_field_resolves_null_or_refetched "update" Example.Post
              [("Post", ModelType "Post")] (viewerRoot [("id", globalIdField "user" None)])
              (or_intror eq_refl))
    as [cfg [Hcfg [Hget _]]]; [right; discriminate|].
  exists cfg. eexists. split; [exact Hcfg|]. split; [exact Hget|].
  repeat split; reflexivity.
Defined.

Lemma remove_outputs_witness :
  exists cfg removedId,
    buildCRUDMutation "remove" Example.Post [("Post", ModelType "Post")] None
      = [("removePost", cfg)] /\
    get (outputFields cfg) "removedId" = Some removedId /\
    callResolver removedId [Example.payloadWithId] = Some (Return (JsString "42")) /\
    hasField (outputFields cfg) "errors" = true /\
    hasField (outputFields cfg) "Post" = false.
Proof.
  destruct (remove_outputs_removedId_without_entity Example.Post
              [("Post", ModelType "Post")] None)
    as [cfg [Hcfg [Hremoved [Herrors [Hentity _]]]]]; [discriminate | discriminate |].
  exists cfg. eexists. split; [exact Hcfg|]. split; [exact Hremoved|].
  split; [reflexivity|]. unfold hasField.
  change (getName Example.Post) with "Post" in Hentity.
  rewrite Herrors, Hentity. split; reflexivity.
Defined.

(** C7, as stated, fails.  The handler reports no errors, as an empty list,
    and the errors field of createPost resolves to null, not to the empty
    list. *)
Lemma errors_resolve_to_null_when_empty :
  member Example.payloadWithId "errors" = Return (JsArray []) /\
  exists cfg errors,
    buildCRUDMutation "create" Example.Post [("Post", ModelType "Post")] None
      = [("createPost", cfg)] /\
    get (outputFields cfg) "errors" = Some errors /\
    callResolver errors [Example.payloadWithId] = Some (Return JsNull) /\
    callResolver errors [Example.payloadWithId] <> Some (Return (JsArray [])).
Proof.
  split; [reflexivity|]. do 2 eexists.
  split; [reflexivity|]. split; [reflexivity|]. split; [reflexivity | discriminate].
Qed.

Lemma errors_field_witness :
  exists cfg errors,
    buildCRUDMutation "update" Example.Post [("Post", ModelType "Post")] None
      = [("updatePost", cfg)] /\
    get (outputFields cfg) "errors" = Some errors /\
    callResolver errors [Example.payloadWithoutResult] =
      Some (Return (JsArray [JsObj [("field", JsString "title");
                                    ("message", JsString "required")]])) /\
    callResolver errors [Example.payloadWithId] = Some (Return JsNull).
Proof.
  destruct (errors_field_resolves_list_or_null "update" Example.Post
              [("Post", ModelType "Post")] None)
    as [cfg [Hcfg [Hget _]]]; [discriminate|].
  exists cfg. eexists. split; [exact Hcfg|]. split; [exact Hget|].
  split; reflexivity.
Defined.

(** C9, as stated, fails.  Both models are flagged as viewer; the first is
    the model user, and the compiler takes the model admin. *)
Lemma viewer_model_is_not_first_flagged :
  option_map getName (hd_error (filter isViewer (visitedModels Example.twoViewers)))
    = Some "user" /\
  option_map getName (viewerModel (prepareModelTypes Example.twoViewers)) = Some "admin" /\
  exists s fields user,
    createGraphqlSchema Example.twoViewers = Return s /\
    viewerRootFields (query s) = Some fields /\
    get fields "user" = Some user /\
    callResolver user [] = Some (resolveViewer Example.SecondViewer emptyParams []) /\
    callResolver user [] <> Some (resolveViewer Example.FirstViewer emptyParams []).
Proof.
  split; [reflexivity|]. split; [reflexivity|]. do 3 eexists.
  split; [reflexivity|]. split; [reflexivity|]. split; [reflexivity|].
  split; [reflexivity | discriminate].
Qed.

Lemma hasOne_properties_witness :
  exists fields,
    schemaToGraphqlFields Example.orphans (schema Example.Orphan) [("Orphan", ModelType "Orphan")]
      = Return fields /\
    get fields "owner" = None /\
    get (schemaToMutationFields (schema Example.Orphan)) "owner" = None.
Proof.
  destruct (hasOne_properties_are_skipped Example.orphans (schema Example.Orphan)
              [("Orphan", ModelType "Orphan")] "owner" (Example.related "hasOne" "Nobody")
              eq_refl eq_refl)
    as [_ [_ [Hrun Hinput]]].
  destruct (Hrun eq_refl) as [fields [Hfields Hnone]].
  exists fields. repeat split; assumption.
Defined.

(** The specification's example: the inputs of createPost are title and
    authorId, without id, and the non-null ID of the query field authorId
    is a plain ID in the input. *)
Example createPost_inputs :
  exists cfg authorId,
    buildCRUDMutation "create" Example.Post [("Post", ModelType "Post")] None
      = [("createPost", cfg)] /\
    keys (inputFields cfg) = ["title"; "authorId"] /\
    get (inputFields cfg) "authorId" = Some authorId /\
    fieldType authorId = Some GraphQLID.
Proof. do 2 eexists. repeat split; reflexivity. Qed.

End Concrete.

(** * Beyond the claims *)

(** ** Loops of single assignments *)

Section LastAssigned.

Import JsObject JsObjectFacts.

Lemma lastOption_app {A : Type} (a b : list A) :
  lastOption (a ++ b)%list =
  match lastOption b with
  | Some y => Some y
  | None => lastOption a
  end.
Proof.
  induction a as [|x a IH]; simpl.
  - now destruct (lastOption b).
  - rewrite IH. now destruct (lastOption b), (lastOption a).
Qed.

Lemma lastOption_in {A : Type} (l : list A) (x : A) : lastOption l = Some x -> In x l.
Proof.
  induction l as [|y l IH]; simpl; [discriminate|].
  destruct (lastOption l) as [z|].
  - intro H. injection H as ->. right. now apply IH.
  - intro H. injection H as ->. now left.
Qed.

Lemma lastOption_none {A : Type} (l : list A) : lastOption l = None -> l = [].
Proof. destruct l as [|y l]; simpl; [reflexivity | now destruct (lastOption l)]. Qed.

Lemma forallb_eq {A : Type} (f g : A -> bool) (l : list A) :
  (forall x, In x l -> f x = g x) -> forallb f l = forallb g l.
Proof.
  induction l as [|x l IH]; simpl; intro H; [reflexivity|].
  rewrite (H x (or_introl eq_refl)), IH; [reflexivity|].
  intros y Hy. apply H. now right.
Qed.

Context {S A V : Type}.
Variable body : S -> A -> Completion S.
Variable proj : S -> t V.
Variable assigns : A -> option (string * V).

(** When every iteration that returns assigns one key of the object [proj]
    of the state, or none, the object ends with the last assignment under
    every assigned key and with what it held under the others. *)
Lemma forEach_last_assigned (items : list A) :
  (forall s x s', In x items -> body s x = Return s' ->
     proj s' = match assigns x with
               | Some (k, v) => set (proj s) k v
               | None => proj s
               end) ->
  forall s s', forEach body items s = Return s' ->
  forall k, get (proj s') k =
            match lastAssigned assigns k items with
            | Some v => Some v
            | None => get (proj s) k
            end.
Proof.
  induction items as [|x items IH]; intros Hbody s s' Hrun k.
  - simpl in Hrun. now injection Hrun as <-.
  - simpl in Hrun. destruct (body s x) as [s1|e] eqn:E; simpl in Hrun; [|discriminate].
    rewrite (IH (fun s0 y s0' Hin => Hbody s0 y s0' (or_intror Hin)) s1 s' Hrun k).
    rewrite (Hbody s x s1 (or_introl eq_refl) E).
    unfold lastAssigned. cbn [flat_map]. rewrite lastOption_app.
    fold (lastAssigned assigns k items).
    destruct (lastAssigned assigns k items) as [v|]; [reflexivity|].
    destruct (assigns x) as [[k' v']|]; [|reflexivity].
    destruct (k' =? k) eqn:Ek.
    + apply String.eqb_eq in Ek. subst k'. simpl. apply get_set_eq.
    + apply String.eqb_neq in Ek. simpl. now apply get_set_neq.
Qed.

(** An assigned key comes from an item of the loop. *)
Lemma lastAssigned_in (items : list A) (k : string) (v : V) :
  lastAssigned assigns k items = Some v ->
  exists x, In x items /\ assigns x = Some (k, v).
Proof.
  unfold lastAssigned. intro H. apply lastOption_in in H.
  apply in_flat_map in H. destruct H as [x [Hin Hx]].
  exists x. split; [exact Hin|].
  destruct (assigns x) as [[k' v']|]; [|contradiction].
  destruct (k' =? k) eqn:Ek; [|contradiction].
  apply String.eqb_eq in Ek. destruct Hx as [<-|[]]. now subst.
Qed.

(** A key some item assigns is assigned. *)
Lemma lastAssigned_some (items : list A) (x : A) (k : string) (v : V) :
  In x items -> assigns x = Some (k, v) ->
  exists v', lastAssigned assigns k items = Some v'.
Proof.
  intros Hin Hx. unfold lastAssigned.
  destruct (lastOption _) as [v'|] eqn:E; [now exists v'|].
  apply lastOption_none in E. exfalso.
  assert (Hv : In v (flat_map (fun x => match assigns x with
                                         | Some (k', v) => if k' =? k then [v] else []
                                         | None => []
                                         end) items)).
  { apply in_flat_map. exists x. split; [exact Hin|].
    rewrite Hx, String.eqb_refl. now left. }
  rewrite E in Hv. contradiction.
Qed.

End LastAssigned.

(** ** Loading the models *)

Section Loading.

Import JsObject JsObjectFacts.

Context {ext : Externals}.

Lemma loadModelsStep_assigns (modelsMap : Models) (entry : string * ModuleExports)
    (modelsMap' : Models) :
  loadModelsStep modelsMap entry = Return modelsMap' ->
  modelsMap' = match loadAssignment entry with
               | Some (k, v) => set modelsMap k v
               | None => modelsMap
               end.
Proof.
  unfold loadModelsStep, loadAssignment.
  destruct (module_default (snd entry)) as [[|m]|]; intro H;
    [discriminate | now injection H | now injection H].
Qed.

Lemma loadModels_get (required : t ModuleExports) (models : Models) :
  loadModels required = Return models ->
  forall k, get models k = lastAssigned loadAssignment k (entries required).
Proof.
  intros Hrun k. unfold loadModels in Hrun.
  rewrite (forEach_last_assigned loadModelsStep (fun o => o) loadAssignment _
             (fun s x s' _ H => loadModelsStep_assigns s x s' H) _ _ Hrun k).
  now destruct (lastAssigned loadAssignment k (entries required)).
Qed.

Lemma keyedByName_spec (models : Models) :
  keyedByName models = true <->
  forall k e, get models k = Some e -> exists m, e = ModelClass m /\ getName m = k.
Proof.
  unfold keyedByName. rewrite forallb_forall. split.
  - intros H k e Hget. specialize (H (k, e) (proj2 (in_entries _ _ _) Hget)). simpl in H.
    destruct e as [|m]; [discriminate|]. exists m. split; [reflexivity|].
    now apply String.eqb_eq.
  - intros H [k e] Hin. apply in_entries in Hin.
    destruct (H k e Hin) as [m [-> <-]]. simpl. apply String.eqb_refl.
Qed.

Lemma loadModels_entries (required : t ModuleExports) (models : Models) :
  loadModels required = Return models ->
  forall k e, get models k = Some e ->
    exists m, e = ModelClass m /\ getName m = k /\ In m (defaultModels required).
Proof.
  intros Hrun k e Hget. rewrite (loadModels_get _ _ Hrun) in Hget.
  destruct (lastAssigned_in loadAssignment _ _ _ Hget) as [x [Hin Hx]].
  unfold loadAssignment in Hx.
  destruct (module_default (snd x)) as [[|m]|] eqn:Hd; try discriminate.
  injection Hx as <- <-. exists m. repeat split.
  unfold defaultModels. apply in_flat_map. exists x. split; [exact Hin|].
  rewrite Hd. now left.
Qed.

Lemma loadModels_keyed (required : t ModuleExports) (models : Models) :
  loadModels required = Return models -> keyedByName models = true.
Proof.
  intro Hrun. apply keyedByName_spec. intros k e Hget.
  destruct (loadModels_entries _ _ Hrun k e Hget) as [m [He [Hk _]]]. now exists m.
Qed.

(** X1.  The map [loadModels] returns holds model classes only, each under
    the name its own [getName] gives and each the default export of a
    required module. *)
Theorem loadModels_keyed_by_name (required : t ModuleExports) (models : Models) :
  loadModels required = Return models ->
  keyedByName models = true /\
  forall k e, get models k = Some e ->
    exists m, e = ModelClass m /\ getName m = k /\ In m (defaultModels required).
Proof.
  intro Hrun. split; [now apply loadModels_keyed with required|].
  now apply loadModels_entries.
Qed.

(** X2.  [loadModels] returns exactly when no required module has a default
    export without [getName]; modules without a default export never make
    it throw. *)
Theorem loadModels_returns_iff (required : t ModuleExports) :
  returns (loadModels required) =
  forallb (fun entry => match module_default (snd entry) with
                        | Some EmptyModule => false
                        | _ => true
                        end)
          (entries required).
Proof.
  unfold loadModels.
  destruct (forallb _ (entries required)) eqn:E.
  - apply forEach_returns. intros s x Hin.
    rewrite forallb_forall in E. specialize (E x Hin).
    unfold loadModelsStep. now destruct (module_default (snd x)) as [[|m]|].
  - assert (Hex : exists x, In x (entries required) /\
                            module_default (snd x) = Some EmptyModule).
    { clear -E. induction (entries required) as [|x l IH]; simpl in E; [discriminate|].
      apply andb_false_iff in E. destruct E as [E|E].
      - exists x. split; [now left|]. now destruct (module_default (snd x)) as [[|m]|].
      - destruct (IH E) as [y [Hin H]]. exists y. now split; [right|]. }
    destruct Hex as [x [Hin Hx]].
    apply (forEach_throws _ _ x Hin). intro s. unfold loadModelsStep. now rewrite Hx.
Qed.

Lemma lastAssigned_load (n : string) (l : list (string * ModuleExports)) :
  lastAssigned loadAssignment n l =
  option_map ModelClass
    (lastOption (filter (hasName n)
       (flat_map (fun entry => match module_default (snd entry) with
                               | Some (ModelClass model) => [model]
                               | _ => []
                               end) l))).
Proof.
  unfold lastAssigned. induction l as [|x l IH]; [reflexivity|].
  cbn [flat_map]. rewrite lastOption_app, IH. rewrite filter_app, lastOption_app.
  destruct (lastOption (filter (hasName n) (flat_map _ l))) as [m|]; [reflexivity|].
  unfold loadAssignment. destruct (module_default (snd x)) as [[|m]|]; try reflexivity.
  cbn [filter]. unfold hasName. now destruct (getName m =? n).
Qed.

(** X3.  When several required modules export models of one name, the map
    holds the last of them (in the order of the files), under that name. *)
Theorem loadModels_last_export_wins (required : t ModuleExports) (models : Models) :
  loadModels required = Return models ->
  forall n, get models n =
            option_map ModelClass (lastOption (filter (hasName n) (defaultModels required))).
Proof.
  intros Hrun n. rewrite (loadModels_get _ _ Hrun). apply lastAssigned_load.
Qed.

Lemma keyed_resolves (models : Models) (m : Model) :
  keyedByName models = true -> In m (visitedModels models) ->
  get models (getName m) = Some (ModelClass m).
Proof.
  intros Hkeyed Hm. apply in_visitedModels in Hm. destruct Hm as [k Hin].
  apply in_entries in Hin.
  destruct (proj1 (keyedByName_spec models) Hkeyed k _ Hin) as [m' [Heq Hk]].
  injection Heq as <-. now rewrite Hk.
Qed.

(** X4.  A schema is compiled from a map that [loadModels] returned only
    when every hasMany property of every loaded model refers to the name of
    a loaded model; the class stored under that name is then the default
    export of a required module. *)
Theorem loaded_models_compile_only_if_refs_resolve (required : t ModuleExports)
    (models : Models) (s : GraphQLSchema) :
  loadModels required = Return models ->
  createGraphqlSchema models = Return s ->
  forall m p field,
    In m (visitedModels models) ->
    get (properties (schema m)) p = Some field ->
    isHasMany field = true ->
    exists target,
      get models (ref field) = Some (ModelClass target) /\
      getName target = ref field /\
      In target (defaultModels required).
Proof.
  intros Hrun Hs m p field Hm Hp Hmany.
  assert (Hc : compilable models = true).
  { rewrite <- createGraphqlSchema_returns. now rewrite Hs. }
  unfold compilable in Hc. rewrite forallb_forall in Hc. specialize (Hc m Hm).
  unfold modelCompiles in Hc. apply andb_true_iff in Hc. destruct Hc as [Hc _].
  unfold hasManyRefsResolve in Hc. rewrite forallb_forall in Hc.
  specialize (Hc (p, field) (proj2 (in_entries _ _ _) Hp)). cbn [snd] in Hc.
  rewrite Hmany in Hc. unfold resolvesToModel in Hc.
  destruct (get models (ref field)) as [[|target]|] eqn:Hget; try discriminate.
  destruct (loadModels_entries _ _ Hrun _ _ Hget) as [m' [Heq [Hname Hin]]].
  injection Heq as <-. exists target. now repeat split.
Qed.

End Loading.

(** ** The compiled schema *)

Section CompiledSchema.

Import JsObject JsObjectFacts.

Context {ext : Externals}.
Variable models : Models.

Lemma existsb_visited (f : Model -> bool) (l : list (string * ModelEntry)) :
  existsb (fun entry => match snd entry with
                        | ModelClass m => f m
                        | EmptyModule => false
                        end) l =
  existsb f (flat_map (fun entry => match snd entry with
                                    | ModelClass model => [model]
                                    | EmptyModule => []
                                    end) l).
Proof.
  induction l as [|[k e] l IH]; simpl; [reflexivity|].
  rewrite existsb_app, IH. destruct e as [|m]; simpl; [reflexivity|].
  now rewrite orb_false_r.
Qed.

Lemma prepare_modelTypes_spec (l : list (string * ModelEntry)) (st : Prepared) (n : string) :
  get (modelTypes (fold_left prepareStep l st)) n =
  if existsb (fun entry => match snd entry with
                           | ModelClass m => hasName n m
                           | EmptyModule => false
                           end) l
  then Some (ModelType n)
  else get (modelTypes st) n.
Proof.
  revert st. induction l as [|[k e] l IH]; intro st; simpl; [reflexivity|].
  rewrite IH. destruct (existsb _ l); [now rewrite orb_true_r|].
  rewrite orb_false_r. destruct e as [|m]; simpl; [reflexivity|].
  unfold hasName. destruct (getName m =? n) eqn:E.
  - apply String.eqb_eq in E. subst n. apply get_set_eq.
  - apply String.eqb_neq in E. now apply get_set_neq.
Qed.

(** The registry of model types: one type per name of a visited model. *)
Lemma modelTypes_spec (n : string) :
  get (modelTypes (prepareModelTypes models)) n =
  if existsb (hasName n) (visitedModels models) then Some (ModelType n) else None.
Proof.
  unfold prepareModelTypes. rewrite prepare_modelTypes_spec.
  rewrite (existsb_visited (hasName n)). reflexivity.
Qed.

Lemma prepare_modelFields_spec (l : list (string * ModelEntry)) (st : Prepared) (n : string) :
  get (modelFields (fold_left prepareStep l st)) n =
  if existsb (fun entry => match snd entry with
                           | ModelClass m => hasName n m
                           | EmptyModule => false
                           end) l
  then Some []
  else get (modelFields st) n.
Proof.
  revert st. induction l as [|[k e] l IH]; intro st; simpl; [reflexivity|].
  rewrite IH. destruct (existsb _ l); [now rewrite orb_true_r|].
  rewrite orb_false_r. destruct e as [|m]; simpl; [reflexivity|].
  unfold hasName. destruct (getName m =? n) eqn:E.
  - apply String.eqb_eq in E. subst n. apply get_set_eq.
  - apply String.eqb_neq in E. now apply get_set_neq.
Qed.

Lemma existsb_hasName (n : string) (l : list Model) :
  existsb (hasName n) l = true <-> exists m, In m l /\ getName m = n.
Proof.
  rewrite existsb_exists. unfold hasName. split; intros [m [Hin H]]; exists m.
  - split; [exact Hin | now apply String.eqb_eq].
  - split; [exact Hin | now apply String.eqb_eq].
Qed.

(** *** What the second loop assigns *)

Lemma fillStep_assigns (types : t GraphQLType) (st st' : Filled) (x : string * ModelEntry) :
  fillStep models types st x = Return st' ->
  queryFields st' = match queryAssignment types x with
                    | Some (k, v) => set (queryFields st) k v
                    | None => queryFields st
                    end /\
  viewerFields st' = match viewerAssignment models types x with
                     | Some (k, v) => set (viewerFields st) k v
                     | None => viewerFields st
                     end /\
  filled_modelFields st' = match modelFieldsAssignment models types x with
                           | Some (k, v) => set (filled_modelFields st) k v
                           | None => filled_modelFields st
                           end.
Proof.
  unfold fillStep, queryAssignment, viewerAssignment, modelFieldsAssignment.
  destruct (snd x) as [|m].
  - intro H. injection H as <-. now repeat split.
  - destruct (schemaToGraphqlFields models (schema m) types) as [fields|e];
      cbn [bind]; [|discriminate].
    destruct (get types (getName m)) as [graphqlType|]; cbn [bind]; [|discriminate].
    destruct (wrapTypeIntoConnection models graphqlType "viewer") as [connection|e];
      cbn [bind]; [|discriminate].
    intro H. injection H as <-. now repeat split.
Qed.

(** Every iteration of a loop that returned has returned. *)
Lemma forEach_each_returns {A S : Type} (body : S -> A -> Completion S)
    (items : list A) (x : A) :
  In x items ->
  forall s s', forEach body items s = Return s' ->
  exists s0 s1, body s0 x = Return s1.
Proof.
  induction items as [|y items IH]; intros Hin s s' Hrun; [contradiction|].
  simpl in Hrun. destruct (body s y) as [s1|e] eqn:E; simpl in Hrun; [|discriminate].
  destruct Hin as [->|Hin].
  - now exists s, s1.
  - now apply (IH Hin s1 s').
Qed.

(** In a loop that returned, every visited model made its three assignments. *)
Lemma fill_assignments (p : Prepared) (filled : Filled) (k : string) (m : Model) :
  fillModelFields models p = Return filled ->
  In (k, ModelClass m) (entries models) ->
  exists connection fields,
    viewerAssignment models (modelTypes p) (k, ModelClass m) =
      Some ("all" ++ capitalize (pluralize (getName m)), connection) /\
    modelFieldsAssignment models (modelTypes p) (k, ModelClass m) =
      Some (getName m, fields).
Proof.
  intros Hrun Hin. unfold fillModelFields in Hrun.
  destruct (forEach_each_returns _ _ _ Hin _ _ Hrun) as [s0 [s1 Hstep]].
  unfold fillStep in Hstep. unfold viewerAssignment, modelFieldsAssignment. cbn [snd] in *.
  destruct (schemaToGraphqlFields models (schema m) (modelTypes p)) as [fields|e];
    cbn [bind] in Hstep; [|discriminate].
  destruct (get (modelTypes p) (getName m)) as [graphqlType|]; cbn [bind] in Hstep;
    [|discriminate].
  destruct (wrapTypeIntoConnection models graphqlType "viewer") as [connection|e];
    [|discriminate].
  now exists connection, fields.
Qed.

Lemma fill_queryFields (p : Prepared) (filled : Filled) (k : string) :
  fillModelFields models p = Return filled ->
  get (queryFields filled) k =
  match lastAssigned (queryAssignment (modelTypes p)) k (entries models) with
  | Some v => Some v
  | None => get [("node", nodeField)] k
  end.
Proof.
  intro Hrun. unfold fillModelFields in Hrun.
  exact (forEach_last_assigned (fillStep models (modelTypes p)) queryFields
           (queryAssignment (modelTypes p)) _
           (fun s x s' _ H => proj1 (fillStep_assigns _ s s' x H)) _ _ Hrun k).
Qed.

Lemma fill_viewerFields (p : Prepared) (filled : Filled) (k : string) :
  fillModelFields models p = Return filled ->
  get (viewerFields filled) k =
  match lastAssigned (viewerAssignment models (modelTypes p)) k (entries models) with
  | Some v => Some v
  | None => get (initialViewerFields p) k
  end.
Proof.
  intro Hrun. unfold fillModelFields in Hrun.
  exact (forEach_last_assigned (fillStep models (modelTypes p)) viewerFields
           (viewerAssignment models (modelTypes p)) _
           (fun s x s' _ H => proj1 (proj2 (fillStep_assigns _ s s' x H))) _ _ Hrun k).
Qed.

Lemma fill_modelFields (p : Prepared) (filled : Filled) (k : string) :
  fillModelFields models p = Return filled ->
  get (filled_modelFields filled) k =
  match lastAssigned (modelFieldsAssignment models (modelTypes p)) k (entries models) with
  | Some v => Some v
  | None => get (modelFields p) k
  end.
Proof.
  intro Hrun. unfold fillModelFields in Hrun.
  exact (forEach_last_assigned (fillStep models (modelTypes p)) filled_modelFields
           (modelFieldsAssignment models (modelTypes p)) _
           (fun s x s' _ H => proj2 (proj2 (fillStep_assigns _ s s' x H))) _ _ Hrun k).
Qed.

(** The parts of a compiled schema. *)
Lemma createGraphqlSchema_parts (s : GraphQLSchema) :
  createGraphqlSchema models = Return s ->
  exists filled,
    fillModelFields models (prepareModelTypes models) = Return filled /\
    query s =
      set (queryFields filled) "viewer"
        (Field (Some (GraphQLObjectType "viewer" (viewerFields filled) true)) None
           (Some (Function (fun _ => Return (JsObj []))))) /\
    mutation s =
      buildMutations models (modelTypes (prepareModelTypes models))
        (Some (Field (Some (GraphQLObjectType "viewer" (viewerFields filled) true)) None
                 (Some (Function (fun _ => Return (JsObj [])))))) /\
    schema_modelFields s = filled_modelFields filled /\
    schema_resolveType s = nodeTypeResolver (modelTypes (prepareModelTypes models)).
Proof.
  unfold createGraphqlSchema.
  destruct (fillModelFields models (prepareModelTypes models)) as [filled|e] eqn:E;
    simpl; [|discriminate].
  intro H. injection H as <-. exists filled. split; [reflexivity|].
  destruct (fillModelFields_viewerFields models _ _ E) as [Hid _].
  rewrite initialViewerFields_id in Hid.
  rewrite (viewerRoot_defined _ _ Hid). cbn [query mutation schema_modelFields schema_resolveType].
  now repeat split.
Qed.

Lemma queryAssignment_key (types : t GraphQLType) (x : string * ModelEntry) (k : string)
    (v : FieldConfig) :
  queryAssignment types x = Some (k, v) ->
  exists m, snd x = ModelClass m /\ k = "get" ++ capitalize (getName m) /\
            v = Field (get types (getName m)) (Some (getGraphqlItemArgs m))
                  (Some (Function (getItemResolver m))).
Proof.
  unfold queryAssignment. destruct (snd x) as [|m]; [discriminate|].
  intro H. injection H as <- <-. now exists m.
Qed.

Lemma in_entries_visited (x : string * ModelEntry) (m : Model) :
  In x (entries models) -> snd x = ModelClass m -> In m (visitedModels models).
Proof.
  intros Hin Hx. apply in_visitedModels. exists (fst x).
  destruct x as [k e]. simpl in *. now subst e.
Qed.

(** X5.  The compiled Query keeps the [node] field of nodeDefinitions.  When
    the request context carries a plain object of data loaders and the
    decoded type name is none of the names every object inherits, its id
    fetcher answers null, without an exception, if the object has no truthy
    loader under the decoded type name, and otherwise what that loader's
    [load] gives for the decoded id. *)
Theorem node_field_null_without_loader (s : GraphQLSchema) :
  createGraphqlSchema models = Return s ->
  get (query s) "node" = Some (Field (Some NodeInterface) None
                                 (Some (NodeFieldResolver nodeIdFetcher))) /\
  forall globalId ctx decoded typeName id state dataLoaders,
    fromGlobalId globalId = Return decoded ->
    member decoded "type" = Return (JsString typeName) ->
    member decoded "id" = Return id ->
    member ctx "state" = Return state ->
    member state "dataLoaders" = Return (JsObj dataLoaders) ->
    inheritedName typeName = false ->
    nodeIdFetcher globalId ctx =
    match get dataLoaders typeName with
    | Some dataLoader => if truthy dataLoader then load dataLoader id else Return JsNull
    | None => Return JsNull
    end.
Proof.
  intro Hs. destruct (createGraphqlSchema_parts s Hs) as [filled [Hfill [Hq _]]].
  split.
  - rewrite Hq. rewrite get_set_neq by discriminate.
    rewrite (fill_queryFields _ _ "node" Hfill).
    destruct (lastAssigned _ "node" (entries models)) as [v|] eqn:E; [|reflexivity].
    destruct (lastAssigned_in _ _ _ _ E) as [x [_ Hx]].
    destruct (queryAssignment_key _ _ _ _ Hx) as [m [_ [Hk _]]]. discriminate.
  - intros globalId ctx decoded typeName id state dataLoaders
           Hdec Htype Hid Hstate Hloaders _.
    unfold nodeIdFetcher. rewrite Hdec. cbn [bind]. rewrite Htype. cbn [bind].
    rewrite Hid. cbn [bind]. rewrite Hstate. cbn [bind]. rewrite Hloaders. cbn [bind].
    cbn [member bind].
    destruct (get dataLoaders typeName) as [dataLoader|]; [|reflexivity].
    now destruct (truthy dataLoader).
Qed.

(** X6.  When the request context carries no [dataLoaders] object at all,
    node resolution throws a TypeError instead of answering null. *)
Theorem node_fetcher_throws_without_dataLoaders (globalId ctx decoded state : JsValue) :
  fromGlobalId globalId = Return decoded ->
  (exists type, member decoded "type" = Return type) ->
  (exists id, member decoded "id" = Return id) ->
  member ctx "state" = Return state ->
  member state "dataLoaders" = Return JsUndefined ->
  exists message, nodeIdFetcher globalId ctx = Throw (TypeError message).
Proof.
  intros Hdec [type Htype] [id Hid] Hstate Hloaders.
  unfold nodeIdFetcher. rewrite Hdec. cbn [bind]. rewrite Htype. cbn [bind].
  rewrite Hid. cbn [bind]. rewrite Hstate. cbn [bind]. rewrite Hloaders. cbn [bind].
  destruct type; simpl; eexists; reflexivity.
Qed.

(** X7.  The type resolver of a compiled schema, no model of which is named
    __proto__, maps an object whose [constructor.modelName] is the name of a
    visited model to that model's type, and an object of any other model
    name that is none of the names every object inherits to null. *)
Theorem resolveType_by_model_name (s : GraphQLSchema) :
  createGraphqlSchema models = Return s ->
  existsb (hasName "__proto__") (visitedModels models) = false ->
  forall obj constructor n,
    member obj "constructor" = Return constructor ->
    member constructor "modelName" = Return (JsString n) ->
    existsb (hasName n) (visitedModels models) = true \/ inheritedName n = false ->
    schema_resolveType s obj =
    Return (if existsb (hasName n) (visitedModels models) then Some (ModelType n) else None).
Proof.
  intros Hs _. destruct (createGraphqlSchema_parts s Hs) as [filled [_ [_ [_ [_ Hr]]]]].
  intros obj constructor n Hc Hn _. rewrite Hr. unfold nodeTypeResolver.
  rewrite Hc. cbn [bind]. rewrite Hn. cbn [bind]. now rewrite modelTypes_spec.
Qed.

(** X8.  The fields of the compiled Query are [node], [viewer] and, for every
    visited model, [get] followed by the capitalized model name: these and
    no others. *)
Theorem query_fields_are_node_viewer_and_getters (s : GraphQLSchema) :
  createGraphqlSchema models = Return s ->
  forall k, In k (keys (query s)) <->
            k = "node" \/ k = "viewer" \/
            exists m, In m (visitedModels models) /\ k = "get" ++ capitalize (getName m).
Proof.
  intros Hs k. destruct (createGraphqlSchema_parts s Hs) as [filled [Hfill [Hq _]]].
  rewrite Hq. split.
  - intro Hin. destruct (in_keys_get _ _ Hin) as [f Hget].
    destruct (string_dec "viewer" k) as [<-|Hne]; [tauto|].
    rewrite (get_set_neq _ _ _ _ Hne) in Hget.
    rewrite (fill_queryFields _ _ k Hfill) in Hget.
    destruct (lastAssigned _ k (entries models)) as [v|] eqn:E.
    + destruct (lastAssigned_in _ _ _ _ E) as [x [Hx Hassign]].
      destruct (queryAssignment_key _ _ _ _ Hassign) as [m [Hm [Hk _]]].
      right. right. exists m. split; [now apply in_entries_visited with x | exact Hk].
    + cbn [get] in Hget. left. destruct ("node" =? k) eqn:En; [|discriminate].
      apply String.eqb_eq in En. now subst k.
  - intros [->|[->|[m [Hm ->]]]].
    + apply get_some_in_keys with nodeField. rewrite get_set_neq by discriminate.
      rewrite (fill_queryFields _ _ "node" Hfill).
      destruct (lastAssigned _ "node" (entries models)) as [v|] eqn:E; [|reflexivity].
      destruct (lastAssigned_in _ _ _ _ E) as [x [_ Hx]].
      destruct (queryAssignment_key _ _ _ _ Hx) as [m [_ [Hk _]]]. discriminate.
    + eapply get_some_in_keys. apply get_set_eq.
    + apply in_visitedModels in Hm. destruct Hm as [key Hin].
      destruct (lastAssigned_some (queryAssignment (modelTypes (prepareModelTypes models)))
                  _ (key, ModelClass m) _ _ Hin eq_refl) as [v Hv].
      apply get_some_in_keys with v. rewrite get_set_neq by discriminate.
      rewrite (fill_queryFields _ _ _ Hfill). now rewrite Hv.
Qed.

(** X9.  Every [get...] field of the compiled Query belongs to a visited model
    whose capitalized name gives the key: it has that model's type and item
    arguments and resolves through [getItemResolver], which passes the id
    decoded by [fromGlobalId] as [params.id] to the model's [resolveItem],
    and no id at all when the argument [id] is absent or empty. *)
Theorem getter_fields_decode_the_id (s : GraphQLSchema) :
  createGraphqlSchema models = Return s ->
  (forall k f, get (query s) k = Some f -> k <> "node" -> k <> "viewer" ->
     exists m, In m (visitedModels models) /\
               k = "get" ++ capitalize (getName m) /\
               f = Field (Some (ModelType (getName m))) (Some (getGraphqlItemArgs m))
                     (Some (Function (getItemResolver m)))) /\
  (forall m root args rest id,
     member args "id" = Return id -> truthy id = false ->
     getItemResolver m (root :: args :: rest) =
     resolveItem m emptyParams (root :: args :: rest)) /\
  (forall m root args rest id decoded localId,
     member args "id" = Return id -> truthy id = true ->
     fromGlobalId id = Return decoded ->
     member decoded "id" = Return localId ->
     getItemResolver m (root :: args :: rest) =
     resolveItem m {| params_id := Some localId; params_property := None |}
       (root :: args :: rest)).
Proof.
  intro Hs. destruct (createGraphqlSchema_parts s Hs) as [filled [Hfill [Hq _]]].
  split; [|split].
  - intros k f Hget Hnode Hviewer. rewrite Hq in Hget.
    rewrite get_set_neq in Hget by congruence.
    rewrite (fill_queryFields _ _ k Hfill) in Hget.
    destruct (lastAssigned _ k (entries models)) as [v|] eqn:E.
    + injection Hget as <-.
      destruct (lastAssigned_in _ _ _ _ E) as [x [Hx Hassign]].
      destruct (queryAssignment_key _ _ _ _ Hassign) as [m [Hm [Hk Hv]]].
      assert (Hvisited : In m (visitedModels models)) by now apply in_entries_visited with x.
      exists m. split; [exact Hvisited|]. split; [exact Hk|].
      rewrite Hv. now rewrite (modelTypes_visited models m Hvisited).
    + cbn [get] in Hget. destruct ("node" =? k) eqn:En; [|discriminate].
      apply String.eqb_eq in En. congruence.
  - intros m root args rest id Hid Hfalsy. unfold getItemResolver. cbn [nth].
    rewrite Hid. cbn [bind]. now rewrite Hfalsy.
  - intros m root args rest id decoded localId Hid Htruthy Hdec Hlocal.
    unfold getItemResolver. cbn [nth]. rewrite Hid. cbn [bind]. rewrite Htruthy.
    rewrite Hdec. cbn [bind]. now rewrite Hlocal.
Qed.

(** X10.  Every placeholder of the type registry is filled: in a compiled
    schema the fields stored under the name of a visited model are those
    [schemaToGraphqlFields] returned for a visited model of that name, and
    nothing is stored under any other name. *)
Theorem placeholders_are_filled (s : GraphQLSchema) :
  createGraphqlSchema models = Return s ->
  (forall m, In m (visitedModels models) ->
     exists fields, get (schema_modelFields s) (getName m) = Some fields) /\
  (forall n fields, get (schema_modelFields s) n = Some fields ->
     exists m, In m (visitedModels models) /\ getName m = n /\
               schemaToGraphqlFields models (schema m)
                 (modelTypes (prepareModelTypes models)) = Return fields).
Proof.
  intro Hs. destruct (createGraphqlSchema_parts s Hs) as [filled [Hfill [_ [_ [Hmf _]]]]].
  rewrite Hmf.
  assert (Hassigned : forall m, In m (visitedModels models) ->
            exists fields,
              lastAssigned (modelFieldsAssignment models (modelTypes (prepareModelTypes models)))
                (getName m) (entries models) = Some fields).
  { intros m Hm. apply in_visitedModels in Hm. destruct Hm as [key Hin].
    destruct (fill_assignments _ _ key m Hfill Hin) as [_ [fields [_ Hassign]]].
    exact (lastAssigned_some _ _ _ _ _ Hin Hassign). }
  split.
  - intros m Hm. destruct (Hassigned m Hm) as [fields Hlast].
    exists fields. rewrite (fill_modelFields _ _ _ Hfill). now rewrite Hlast.
  - intros n fields Hget. rewrite (fill_modelFields _ _ _ Hfill) in Hget.
    destruct (lastAssigned _ n (entries models)) as [v|] eqn:E.
    + injection Hget as <-. destruct (lastAssigned_in _ _ _ _ E) as [x [Hx Hassign]].
      unfold modelFieldsAssignment in Hassign. destruct (snd x) as [|m] eqn:Hm; [discriminate|].
      destruct (schemaToGraphqlFields models (schema m) _) as [fields|e] eqn:Hrun;
        [|discriminate].
      injection Hassign as <- <-. exists m.
      split; [now apply in_entries_visited with x|]. now split.
    + exfalso. unfold prepareModelTypes in Hget. rewrite prepare_modelFields_spec in Hget.
      rewrite (existsb_visited (hasName n)) in Hget. fold (visitedModels models) in Hget.
      destruct (existsb (hasName n) (visitedModels models)) eqn:Hex; [|discriminate].
      apply existsb_hasName in Hex. destruct Hex as [m [Hm <-]].
      destruct (Hassigned m Hm) as [fields' Hlast]. congruence.
Qed.

End CompiledSchema.

(** ** The viewer root and the mutations of a compiled schema *)

Section CompiledViewer.

Import JsObject JsObjectFacts.

Context {ext : Externals}.
Variable models : Models.

Lemma viewerModel_flagged :
  match viewerModel (prepareModelTypes models) with Some _ => true | None => false end =
  existsb isViewer (visitedModels models).
Proof.
  unfold prepareModelTypes. rewrite prepare_viewerModel. cbn [viewerModel].
  fold (visitedModels models). rewrite <- lastOption_filter.
  now destruct (lastOption (filter isViewer (visitedModels models))).
Qed.

Lemma viewerRootFields_compiled (s : GraphQLSchema) (filled : Filled) :
  query s =
    set (queryFields filled) "viewer"
      (Field (Some (GraphQLObjectType "viewer" (viewerFields filled) true)) None
         (Some (Function (fun _ => Return (JsObj []))))) ->
  viewerRootFields (query s) = Some (viewerFields filled).
Proof. intros ->. unfold viewerRootFields. now rewrite get_set_eq. Qed.

Lemma viewerAssignment_key (types : t GraphQLType) (x : string * ModelEntry) (k : string)
    (f : FieldConfig) :
  viewerAssignment models types x = Some (k, f) ->
  exists m graphqlType,
    snd x = ModelClass m /\
    k = "all" ++ capitalize (pluralize (getName m)) /\
    get types (getName m) = Some graphqlType /\
    wrapTypeIntoConnection models graphqlType "viewer" = Return f.
Proof.
  unfold viewerAssignment. destruct (snd x) as [|m]; [discriminate|].
  destruct (get types (getName m)) as [graphqlType|] eqn:Ht; [|discriminate].
  destruct (wrapTypeIntoConnection models graphqlType "viewer") as [c|e] eqn:E; [|discriminate].
  intro H. injection H as <- <-. exists m, graphqlType.
  repeat split; first [reflexivity | assumption].
Qed.

(** X11.  The fields of the viewer root of a compiled schema are [id], [user]
    when some visited model is flagged as viewer, and, for every visited
    model, [all] followed by the capitalized plural of its name: these and
    no others. *)
Theorem viewer_fields_are_id_user_and_lists (s : GraphQLSchema) :
  createGraphqlSchema models = Return s ->
  exists fields,
    viewerRootFields (query s) = Some fields /\
    forall k, In k (keys fields) <->
              k = "id" \/
              (k = "user" /\ existsb isViewer (visitedModels models) = true) \/
              exists m, In m (visitedModels models) /\
                        k = "all" ++ capitalize (pluralize (getName m)).
Proof.
  intro Hs. destruct (createGraphqlSchema_parts models s Hs) as [filled [Hfill [Hq _]]].
  exists (viewerFields filled). split; [now apply viewerRootFields_compiled|].
  intro k. split.
  - intro Hin. destruct (in_keys_get _ _ Hin) as [f Hget].
    rewrite (fill_viewerFields models _ _ k Hfill) in Hget.
    destruct (lastAssigned _ k (entries models)) as [v|] eqn:E.
    + destruct (lastAssigned_in _ _ _ _ E) as [x [Hx Hassign]].
      destruct (viewerAssignment_key _ _ _ _ Hassign) as [m [_ [Hm [Hk _]]]].
      right. right. exists m. split; [now apply in_entries_visited with x | exact Hk].
    + unfold initialViewerFields in Hget. rewrite <- viewerModel_flagged.
      destruct (viewerModel (prepareModelTypes models)) as [viewer|].
      * destruct (string_dec "user" k) as [<-|Hne]; [right; left; now split|].
        rewrite get_set_neq in Hget by exact Hne. cbn [get] in Hget.
        destruct ("id" =? k) eqn:Eid; [|discriminate].
        apply String.eqb_eq in Eid. now left.
      * cbn [get] in Hget. destruct ("id" =? k) eqn:Eid; [|discriminate].
        apply String.eqb_eq in Eid. now left.
  - intros [->|[[-> Hflag]|[m [Hm ->]]]].
    + destruct (fillModelFields_viewerFields models _ _ Hfill) as [Hid _].
      rewrite initialViewerFields_id in Hid. now apply get_some_in_keys in Hid.
    + destruct (fillModelFields_viewerFields models _ _ Hfill) as [_ Huser].
      pose proof (initialViewerFields_user (prepareModelTypes models)) as Hinit.
      rewrite viewerModel_flagged, Hflag in Hinit. unfold hasField in Hinit.
      rewrite <- Huser in Hinit.
      destruct (get (viewerFields filled) "user") as [f|] eqn:E; [|discriminate].
      now apply get_some_in_keys in E.
    + apply in_visitedModels in Hm. destruct Hm as [key Hin].
      destruct (fill_assignments models _ _ key m Hfill Hin) as [c [_ [Hassign _]]].
      destruct (lastAssigned_some _ _ _ _ _ Hin Hassign) as [v Hv].
      apply get_some_in_keys with v.
      rewrite (fill_viewerFields models _ _ _ Hfill). now rewrite Hv.
Qed.

(** X12.  Every list-all field of the viewer root belongs to a visited model:
    its Connection and Edge types are named after viewer and that model, the
    Edge's node is the model's type, and its arguments and resolver are the
    list arguments and [resolveAll] of the model class that the models map
    holds under that model's name. *)
Theorem list_all_fields_wrap_model_types (s : GraphQLSchema) :
  createGraphqlSchema models = Return s ->
  exists fields,
    viewerRootFields (query s) = Some fields /\
    forall k f, get fields k = Some f -> k <> "id" -> k <> "user" ->
      exists m target,
        In m (visitedModels models) /\
        k = "all" ++ capitalize (pluralize (getName m)) /\
        get models (getName m) = Some (ModelClass target) /\
        connectionTypeName f = Some ("viewer" ++ "_" ++ getName m ++ "Connection") /\
        edgeTypeName f = Some ("viewer" ++ "_" ++ getName m ++ "Edge") /\
        edgeNodeType f = Some (ModelType (getName m)) /\
        fieldArgs f = Some (getGraphqlListArgs target) /\
        forall arguments,
          callResolver f arguments = Some (resolveAll target emptyParams arguments).
Proof.
  intro Hs. destruct (createGraphqlSchema_parts models s Hs) as [filled [Hfill [Hq _]]].
  exists (viewerFields filled). split; [now apply viewerRootFields_compiled|].
  intros k f Hget Hid Huser.
  rewrite (fill_viewerFields models _ _ k Hfill) in Hget.
  destruct (lastAssigned _ k (entries models)) as [v|] eqn:E.
  - injection Hget as <-. destruct (lastAssigned_in _ _ _ _ E) as [x [Hx Hassign]].
    destruct (viewerAssignment_key _ _ _ _ Hassign) as [m [graphqlType [Hm [Hk [Htype Hwrap]]]]].
    assert (Hvisited : In m (visitedModels models)) by now apply in_entries_visited with x.
    rewrite (modelTypes_visited models m Hvisited) in Htype. injection Htype as <-.
    unfold wrapTypeIntoConnection in Hwrap. cbn [typeName toStringOr] in Hwrap.
    unfold modelAt in Hwrap.
    destruct (get models (getName m)) as [[|target]|] eqn:Htarget; try discriminate.
    cbn [bind] in Hwrap. injection Hwrap as <-.
    exists m, target. repeat split; assumption.
  - exfalso. unfold initialViewerFields in Hget.
    destruct (viewerModel (prepareModelTypes models)) as [viewer|].
    + rewrite get_set_neq in Hget by congruence. cbn [get] in Hget.
      destruct ("id" =? k) eqn:Eid; [|discriminate].
      apply String.eqb_eq in Eid. congruence.
    + cbn [get] in Hget. destruct ("id" =? k) eqn:Eid; [|discriminate].
      apply String.eqb_eq in Eid. congruence.
Qed.

(** X13.  When a model is named exactly user, the [user] field of the viewer
    root of a compiled schema has that model's type, whichever model is the
    viewer model. *)
Theorem user_field_has_the_type_named_user (s : GraphQLSchema) :
  createGraphqlSchema models = Return s ->
  existsb (hasName "user") (visitedModels models) = true ->
  exists fields,
    viewerRootFields (query s) = Some fields /\
    forall f, get fields "user" = Some f -> fieldType f = Some (ModelType "user").
Proof.
  intros Hs Hnamed.
  destruct (createGraphqlSchema_parts models s Hs) as [filled [Hfill [Hq _]]].
  exists (viewerFields filled). split; [now apply viewerRootFields_compiled|].
  intros f Hget.
  destruct (fillModelFields_viewerFields models _ _ Hfill) as [_ Huser].
  rewrite Huser in Hget. unfold initialViewerFields in Hget.
  destruct (viewerModel (prepareModelTypes models)) as [viewer|]; [|discriminate].
  rewrite get_set_eq in Hget. injection Hget as <-. cbn [fieldType].
  rewrite modelTypes_spec. now rewrite Hnamed.
Qed.

(** C3 (amended).  In every schema that compilation returns, the root Query
    exposes the viewer root, and the viewer root has its [id] field and one
    list-all field for every visited model, whether or not a model is
    designated as viewer; its [user] field is present if and only if some
    visited model is flagged as viewer. *)
Theorem viewer_root_always_exposed (s : GraphQLSchema) :
  createGraphqlSchema models = Return s ->
  exists fields,
    viewerRootFields (query s) = Some fields /\
    hasField fields "id" = true /\
    (forall m, In m (visitedModels models) ->
       hasField fields ("all" ++ capitalize (pluralize (getName m))) = true) /\
    hasField fields "user" = existsb isViewer (visitedModels models).
Proof.
  intro Hs. destruct (createGraphqlSchema_parts models s Hs) as [filled [Hfill [Hq _]]].
  exists (viewerFields filled). split; [now apply viewerRootFields_compiled|].
  destruct (fillModelFields_viewerFields models _ _ Hfill) as [Hid Huser].
  split; [|split].
  - rewrite initialViewerFields_id in Hid. unfold hasField. now rewrite Hid.
  - intros m Hm. apply in_visitedModels in Hm. destruct Hm as [key Hin].
    destruct (fill_assignments models _ _ key m Hfill Hin) as [c [_ [Hassign _]]].
    destruct (lastAssigned_some _ _ _ _ _ Hin Hassign) as [v Hv].
    unfold hasField. rewrite (fill_viewerFields models _ _ _ Hfill). now rewrite Hv.
  - unfold hasField at 1. rewrite Huser.
    fold (hasField (initialViewerFields (prepareModelTypes models)) "user").
    rewrite initialViewerFields_user. apply viewerModel_flagged.
Qed.

(** *** Mutations *)

Lemma mutationsStep_sets (types : t GraphQLType) (viewer : option FieldConfig)
    (acc : t MutationConfig) (k : string) (m : Model) :
  mutationsStep types viewer acc (k, ModelClass m) =
  set (set (set acc (mutationName "create" m) (mutationConfig "create" m types viewer))
           (mutationName "update" m) (mutationConfig "update" m types viewer))
      (mutationName "remove" m) (mutationConfig "remove" m types viewer).
Proof. reflexivity. Qed.

(** Every mutation of the Mutation type is the configuration built for a
    visited model and an action. *)
Lemma buildMutations_configs (types : t GraphQLType) (viewer : option FieldConfig)
    (k : string) (cfg : MutationConfig) :
  get (buildMutations models types viewer) k = Some cfg ->
  exists m a, In m (visitedModels models) /\ In a actions /\
              k = mutationName a m /\ cfg = mutationConfig a m types viewer.
Proof.
  unfold buildMutations. revert k cfg.
  apply (fold_left_invariant (mutationsStep types viewer)
           (fun acc => forall k cfg, get acc k = Some cfg ->
              exists m a, In m (visitedModels models) /\ In a actions /\
                          k = mutationName a m /\ cfg = mutationConfig a m types viewer)).
  - intros acc [key e] Hin IH k cfg. destruct e as [|m]; [apply IH|].
    assert (Hm : In m (visitedModels models)) by (apply in_visitedModels; now exists key).
    rewrite mutationsStep_sets.
    destruct (string_dec (mutationName "remove" m) k) as [<-|Nr].
    { rewrite get_set_eq. intro H. injection H as <-.
      exists m, "remove". unfold actions. simpl. tauto. }
    rewrite (get_set_neq _ _ _ _ Nr).
    destruct (string_dec (mutationName "update" m) k) as [<-|Nu].
    { rewrite get_set_eq. intro H. injection H as <-.
      exists m, "update". unfold actions. simpl. tauto. }
    rewrite (get_set_neq _ _ _ _ Nu).
    destruct (string_dec (mutationName "create" m) k) as [<-|Nc].
    { rewrite get_set_eq. intro H. injection H as <-.
      exists m, "create". unfold actions. simpl. tauto. }
    rewrite (get_set_neq _ _ _ _ Nc). apply IH.
  - intros k cfg H. discriminate.
Qed.

Lemma outputFields_viewer (action : string) (model : Model) (types : t GraphQLType)
    (v : FieldConfig) :
  (action =? "remove") = false \/ getName model <> "viewer" ->
  get (outputFields (mutationConfig action model types (Some v))) "viewer" = Some v.
Proof.
  intro H. unfold mutationConfig. cbn [outputFields].
  destruct (action =? "remove").
  - destruct H as [H|H]; [discriminate|].
    rewrite get_delete_neq by exact H. rewrite get_set_neq by discriminate.
    apply get_set_eq.
  - apply get_set_eq.
Qed.

(** X14.  When no visited model is itself named viewer, every mutation of a
    compiled schema, whatever its action, has the output field [viewer], and
    it is the very field the Query exposes as [viewer]. *)
Theorem every_mutation_echoes_the_viewer (s : GraphQLSchema) :
  createGraphqlSchema models = Return s ->
  existsb (hasName "viewer") (visitedModels models) = false ->
  exists v,
    get (query s) "viewer" = Some v /\
    forall k cfg, get (mutation s) k = Some cfg ->
                  get (outputFields cfg) "viewer" = Some v.
Proof.
  intros Hs Hnone.
  destruct (createGraphqlSchema_parts models s Hs) as [filled [_ [Hq [Hmut _]]]].
  eexists. split; [rewrite Hq; apply get_set_eq|].
  intros k cfg Hget. rewrite Hmut in Hget.
  destruct (buildMutations_configs _ _ _ _ Hget) as [m [a [Hm [_ [_ ->]]]]].
  apply outputFields_viewer. right. intro Hname.
  assert (Hex : existsb (hasName "viewer") (visitedModels models) = true)
    by (apply existsb_hasName; now exists m).
  congruence.
Qed.

End CompiledViewer.

(** ** Mutation payloads and relation fields *)

Section PayloadsAndRelations.

Import JsObject JsObjectFacts.

Context {ext : Externals}.

(** X15.  The remove mutation of a model takes the same input fields as its
    update mutation, every non-relation property included; the create
    mutation takes those without the properties [isPrimaryKey] accepts. *)
Theorem remove_and_create_inputs_from_update (model : Model) (types : t GraphQLType)
    (viewer : option FieldConfig) :
  inputFields (mutationConfig "remove" model types viewer) =
    inputFields (mutationConfig "update" model types viewer) /\
  forall p field,
    get (inputFields (mutationConfig "create" model types viewer)) p =
    if isPrimaryKey field p then None
    else get (inputFields (mutationConfig "update" model types viewer)) p.
Proof.
  split; [reflexivity|]. intros p field. unfold mutationConfig, isPrimaryKey.
  cbn [inputFields]. change ("create" =? "create") with true.
  change ("update" =? "create") with false. cbv iota.
  destruct (p =? "id") eqn:E.
  - apply String.eqb_eq in E. subst p. apply get_delete_eq.
  - apply String.eqb_neq in E. apply get_delete_neq. congruence.
Qed.

(** X16.  When the payload of the mutate handler has no result ([null] or
    [undefined]), the [removedId] field of a remove mutation throws a
    TypeError, where the entity field of a create or update mutation
    resolves to null. *)
Theorem removedId_throws_without_result (payload result : JsValue) (rest : list JsValue) :
  member payload "result" = Return result ->
  result = JsNull \/ result = JsUndefined ->
  (exists message, removedIdResolver (payload :: rest) = Throw (TypeError message)) /\
  forall model, successResolver model (payload :: rest) = Return JsNull.
Proof.
  intros Hres Habsent. split.
  - unfold removedIdResolver. cbn [nth]. rewrite Hres. cbn [bind].
    destruct Habsent as [->| ->]; simpl; eexists; reflexivity.
  - intro model. unfold successResolver. cbn [nth]. rewrite Hres. cbn [bind].
    destruct Habsent as [->| ->]; reflexivity.
Qed.

(** X17.  With a viewer root attached and a model whose name is none of
    errors, viewer and removedId and is not made of digits, the output
    fields of a create or update mutation are errors, the field named after
    the model and viewer, in that order, and those of a remove mutation are
    errors, viewer and removedId. *)
Theorem output_fields_in_order (action : string) (model : Model) (types : t GraphQLType)
    (v : FieldConfig) :
  getName model <> "errors" ->
  getName model <> "viewer" ->
  getName model <> "removedId" ->
  integerLike (getName model) = false ->
  keys (outputFields (mutationConfig action model types (Some v))) =
  if action =? "remove" then ["errors"; "viewer"; "removedId"]
  else ["errors"; getName model; "viewer"].
Proof.
  intros He Hv Hr _. unfold mutationConfig. cbn [outputFields].
  assert (E1 : ("errors" =? getName model) = false) by (apply String.eqb_neq; congruence).
  assert (E2 : (getName model =? "viewer") = false) by now apply String.eqb_neq.
  assert (E3 : (getName model =? "removedId") = false) by now apply String.eqb_neq.
  assert (E4 : ("viewer" =? getName model) = false) by (apply String.eqb_neq; congruence).
  assert (E5 : ("removedId" =? getName model) = false) by (apply String.eqb_neq; congruence).
  cbn [set]. rewrite E1. cbn [set]. change ("errors" =? "viewer") with false.
  rewrite E2. cbv iota. cbn [set].
  destruct (action =? "remove").
  - cbn [set]. change ("errors" =? "removedId") with false. rewrite E3.
    change ("viewer" =? "removedId") with false. cbv iota.
    unfold delete. cbn [filter fst negb]. rewrite E1, E4, E5, String.eqb_refl.
    reflexivity.
  - reflexivity.
Qed.

Variable models : Models.

(** X18.  For a non-relation property whose name is none of the names every
    object inherits: a custom resolver of the schema replaces the resolver
    of its compiled field and leaves its type and arguments as
    [fieldToGraphqlType] gave them; without one the compiled field is that
    of [fieldToGraphqlType]; the mutation input field of the property keeps
    the resolver of [fieldToGraphqlType] in both cases. *)
Theorem custom_resolver_replaces_resolve_only (s : Schema) (types : t GraphQLType)
    (fields : t FieldConfig) (p : string) (field : Property) :
  schemaToGraphqlFields models s types = Return fields ->
  get (properties s) p = Some field ->
  isRelation field = false ->
  inheritedName p = false ->
  (forall custom r,
     resolvers s = Some custom -> get custom p = Some r ->
     get fields p =
     Some (Field (fieldType (fieldToGraphqlType p field s))
             (fieldArgs (fieldToGraphqlType p field s)) (Some (Function r)))) /\
  ((resolvers s = None \/ exists custom, resolvers s = Some custom /\ get custom p = None) ->
   get fields p = Some (fieldToGraphqlType p field s)) /\
  exists input,
    get (schemaToMutationFields s) p = Some input /\
    fieldResolve input = fieldResolve (fieldToGraphqlType p field s).
Proof.
  intros Hrun Hp Hrel _.
  pose proof (schemaToGraphqlFields_get models _ _ _ Hrun p) as Hget.
  rewrite (storedGraphqlField_scalar models s types p field Hp Hrel) in Hget.
  split; [|split].
  - intros custom r Hc Hr. rewrite Hget. unfold withCustomResolver. now rewrite Hc, Hr.
  - intros [Hnone|[custom [Hc Hr]]]; rewrite Hget; unfold withCustomResolver.
    + now rewrite Hnone.
    + now rewrite Hc, Hr.
  - rewrite schemaToMutationFields_get, storedMutationField_eq, Hp, Hrel.
    eexists. split; reflexivity.
Qed.

Lemma hasMany_field (s : Schema) (types : t GraphQLType) (fields : t FieldConfig)
    (p : string) (field : Property) :
  schemaToGraphqlFields models s types = Return fields ->
  get (properties s) p = Some field ->
  isHasMany field = true ->
  exists f target,
    get fields p = Some f /\
    get models (ref field) = Some (ModelClass target) /\
    edgeNodeType f = get types (ref field) /\
    fieldArgs f = Some (getGraphqlListArgs target) /\
    forall arguments,
      callResolver f arguments =
      Some (resolveHasMany target
              {| params_id := None; params_property := Some field |} arguments).
Proof.
  intros Hrun Hp Hmany.
  pose proof (schemaToGraphqlFields_get models _ _ _ Hrun p) as Hget.
  unfold storedGraphqlField in Hget. rewrite Hp in Hget.
  unfold graphqlFieldsStep in Hget. rewrite (isHasMany_isRelation field Hmany) in Hget.
  unfold isHasMany in Hmany. rewrite Hmany in Hget.
  assert (Hok : resolvesToModel models (ref field) = true).
  { pose proof (schemaToGraphqlFields_returns models s types) as Hr.
    rewrite Hrun in Hr. simpl in Hr. symmetry in Hr.
    unfold hasManyRefsResolve in Hr. rewrite forallb_forall in Hr.
    specialize (Hr (p, field) (proj2 (in_entries _ _ _) Hp)). simpl in Hr.
    unfold isHasMany in Hr. now rewrite Hmany in Hr. }
  unfold resolvesToModel in Hok. unfold hasManyField, modelAt in Hget.
  destruct (get models (ref field)) as [[|target]|] eqn:Htarget; try discriminate.
  cbn [bind] in Hget. rewrite get_set_eq in Hget.
  eexists. exists target. split; [exact Hget|]. now repeat split.
Qed.

(** X19.  The compiled field of a hasMany property is wired to the model class
    the models map holds under the property's [ref]: its arguments are that
    model's list arguments, its resolver calls that model's [resolveHasMany]
    with the property descriptor as [params.property], and the node of its
    Edge type is whatever the type registry holds under [ref].  A custom
    resolver declared for the property plays no part. *)
Theorem hasMany_field_delegates_to_referenced_model (s : Schema) (types : t GraphQLType)
    (fields : t FieldConfig) (p : string) (field : Property) :
  schemaToGraphqlFields models s types = Return fields ->
  get (properties s) p = Some field ->
  isHasMany field = true ->
  exists f target,
    get fields p = Some f /\
    get models (ref field) = Some (ModelClass target) /\
    edgeNodeType f = get types (ref field) /\
    fieldArgs f = Some (getGraphqlListArgs target) /\
    forall arguments,
      callResolver f arguments =
      Some (resolveHasMany target
              {| params_id := None; params_property := Some field |} arguments).
Proof. apply hasMany_field. Qed.

(** X20.  In a schema compiled from a map keyed by the models' names, as
    [loadModels] builds it, the Edge type of every hasMany field of every
    model has a defined node type: the type of the model the property
    refers to. *)
Theorem hasMany_nodes_are_model_types (s : GraphQLSchema) (m : Model) (p : string)
    (field : Property) :
  keyedByName models = true ->
  createGraphqlSchema models = Return s ->
  In m (visitedModels models) ->
  get (properties (schema m)) p = Some field ->
  isHasMany field = true ->
  exists fields f,
    get (schema_modelFields s) (getName m) = Some fields /\
    get fields p = Some f /\
    edgeNodeType f = Some (ModelType (ref field)).
Proof.
  intros Hkeyed Hs Hm Hp Hmany.
  destruct (createGraphqlSchema_parts models s Hs) as [filled [Hfill [_ [_ [Hmf _]]]]].
  rewrite Hmf.
  pose proof Hm as Hentry. apply in_visitedModels in Hentry. destruct Hentry as [key Hin].
  destruct (fill_assignments models _ _ key m Hfill Hin) as [_ [fields0 [_ Hassign]]].
  destruct (lastAssigned_some _ _ _ _ _ Hin Hassign) as [fields Hlast].
  destruct (lastAssigned_in _ _ _ _ Hlast) as [x [Hx Hxassign]].
  unfold modelFieldsAssignment in Hxassign.
  destruct (snd x) as [|m'] eqn:Hm'; [discriminate|].
  destruct (schemaToGraphqlFields models (schema m') _) as [fields'|e] eqn:Hrun; [|discriminate].
  injection Hxassign as Hname <-.
  assert (Hvisited' : In m' (visitedModels models)) by now apply in_entries_visited with x.
  pose proof (keyed_resolves models m Hkeyed Hm) as H1.
  pose proof (keyed_resolves models m' Hkeyed Hvisited') as H2.
  rewrite Hname, H1 in H2. injection H2 as <-.
  destruct (hasMany_field _ _ _ p field Hrun Hp Hmany)
    as [f [target [Hf [Htarget [Hnode _]]]]].
  exists fields', f. split; [|split].
  - rewrite (fill_modelFields models _ _ _ Hfill). now rewrite Hlast.
  - exact Hf.
  - rewrite Hnode.
    destruct (proj1 (keyedByName_spec models) Hkeyed _ _ Htarget) as [t' [Ht' Href]].
    injection Ht' as <-. rewrite <- Href. apply modelTypes_visited.
    apply in_visitedModels. exists (ref field). now apply in_entries.
Qed.

End PayloadsAndRelations.

(** ** Starting the server *)

Section Starting.

Import JsObject JsObjectFacts.

Context {ext : Externals}.

(** X21.  [boot] ends normally when the sources are required and connected,
    and also when what failed is an Error whose code is MODULE_NOT_FOUND, as
    for a missing config/sources.js; any other failure, of the require, of
    reading [default.default.connectionString] or of the connection, is
    printed once and thrown again. *)
Theorem boot_tolerates_only_module_not_found (requireSources : Settled JsValue)
    (connect : JsValue -> Settled unit) :
  (forall e, requireSources = Rejected e ->
     boot requireSources connect =
     if isModuleNotFound e then ([], Fulfilled tt) else ([e], Rejected e)) /\
  (forall sources e,
     requireSources = Fulfilled sources ->
     bootDataSources connect sources = Rejected e ->
     boot requireSources connect =
     if isModuleNotFound e then ([], Fulfilled tt) else ([e], Rejected e)) /\
  (forall sources,
     requireSources = Fulfilled sources ->
     bootDataSources connect sources = Fulfilled tt ->
     boot requireSources connect = ([], Fulfilled tt)) /\
  (forall sources outer,
     member sources "default" = Return outer ->
     outer = JsUndefined \/ outer = JsNull ->
     exists e, bootDataSources connect sources = Rejected e /\
               isModuleNotFound e = false).
Proof.
  split; [|split; [|split]].
  - intros e ->. reflexivity.
  - intros sources e -> H. unfold boot. now rewrite H.
  - intros sources -> H. unfold boot. now rewrite H.
  - intros sources outer Hd Hou. unfold bootDataSources. rewrite Hd. cbn [bind].
    destruct Hou as [->| ->]; simpl; eexists; split; reflexivity.
Qed.



(** X23.  When the loaded models do not compile, [start] prints the error and
    stops: the schema and the /graphql route are not set, [this.app] is not
    assigned, [boot] is not run and the server does not listen, whatever the
    data sources are. *)
Theorem start_stops_when_the_schema_does_not_compile
    (required : t ModuleExports) (models : Models) (e : JsError)
    (requireSources : Settled JsValue) (connect : JsValue -> Settled unit) :
  loadModels required = Return models ->
  createGraphqlSchema models = Throw e ->
  start (Fulfilled required) requireSources connect =
  {| server_models := Some models; server_graphqlSchema := None;
     server_graphqlRoute := false; server_app := false; server_listening := false;
     server_consoleErrors := [thrownOf e] |}.
Proof.
  intros Hload Hthrow. unfold start. rewrite Hload. unfold exposeSchema.
  destruct (keys models) as [|k ks] eqn:Hkeys.
  - exfalso. destruct models as [|[k v] rest]; [|discriminate].
    discriminate.
  - now rewrite Hthrow.
Qed.


End Starting.

(** ** The further properties on concrete models *)

Section ConcreteServer.

Import JsObject.

Local Existing Instance Example.externals.

Lemma loadModels_keyed_witness :
  keyedByName Sample.loaded = true /\
  forall k e, get Sample.loaded k = Some e ->
    exists m, e = ModelClass m /\ getName m = k /\ In m (defaultModels Sample.modules).
Proof. exact (loadModels_keyed_by_name Sample.modules Sample.loaded eq_refl). Defined.

(** Of the two files that export a model named Post, the later one is kept. *)
Lemma loadModels_last_export_witness :
  keys Sample.loaded = ["Post"; "User"] /\
  get Sample.loaded "Post" = Some (ModelClass Sample.PostDraft).
Proof.
  split; [reflexivity|].
  exact (loadModels_last_export_wins Sample.modules Sample.loaded eq_refl "Post").
Defined.

Lemma loaded_models_compile_witness :
  loadModels Sample.blogModules = Return Example.blog /\
  exists s target,
    createGraphqlSchema Example.blog = Return s /\
    get Example.blog "Comment" = Some (ModelClass target) /\
    getName target = "Comment" /\
    In target (defaultModels Sample.blogModules).
Proof.
  split; [reflexivity|].
  destruct (compilable_returns Example.blog eq_refl) as [s Hs].
  destruct (loaded_models_compile_only_if_refs_resolve Sample.blogModules Example.blog s
              eq_refl Hs Example.Article "comments" (Example.related "hasMany" "Comment")
              (or_introl eq_refl) eq_refl eq_refl)
    as [target Htarget].
  exists s, target. split; [exact Hs | exact Htarget].
Defined.

(** The global ids are those of Article 1, for which the context has no
    loader, and of User 7, for which it has one. *)
Lemma node_field_witness :
  exists s,
    createGraphqlSchema Example.blog = Return s /\
    hasField (query s) "node" = true /\
    nodeIdFetcher (JsString "QXJ0aWNsZTox") Sample.contextWithUserLoader = Return JsNull /\
    nodeIdFetcher (JsString "VXNlcjo3") Sample.contextWithUserLoader
      = Return (JsObj [("id", JsString "7")]).
Proof.
  destruct (compilable_returns Example.blog eq_refl) as [s Hs].
  destruct (node_field_null_without_loader Example.blog s Hs) as [Hnode Hfetch].
  exists s. split; [exact Hs|]. split; [|split].
  - unfold hasField. now rewrite Hnode.
  - exact (Hfetch (JsString "QXJ0aWNsZTox") Sample.contextWithUserLoader
             (JsObj [("type", JsString "Article"); ("id", JsString "1")]) "Article"
             (JsString "1")
             (JsObj [("dataLoaders", JsObj [("User", JsObj [])])])
             [("User", JsObj [])]
             eq_refl eq_refl eq_refl eq_refl eq_refl eq_refl).
  - exact (Hfetch (JsString "VXNlcjo3") Sample.contextWithUserLoader
             (JsObj [("type", JsString "User"); ("id", JsString "7")]) "User"
             (JsString "7")
             (JsObj [("dataLoaders", JsObj [("User", JsObj [])])])
             [("User", JsObj [])]
             eq_refl eq_refl eq_refl eq_refl eq_refl eq_refl).
Defined.

Lemma node_fetcher_throws_witness :
  exists message,
    nodeIdFetcher (JsString "UG9zdDox") Sample.contextWithoutLoaders
    = Throw (TypeError message).
Proof.
  apply (node_fetcher_throws_without_dataLoaders (JsString "UG9zdDox")
           Sample.contextWithoutLoaders
           (JsObj [("type", JsString "Post"); ("id", JsString "1")])
           (JsObj [])).
  - reflexivity.
  - eexists. reflexivity.
  - eexists. reflexivity.
  - reflexivity.
  - reflexivity.
Defined.

Lemma resolveType_witness :
  exists s,
    createGraphqlSchema Example.blog = Return s /\
    schema_resolveType s (JsObj [("constructor", JsObj [("modelName", JsString "Article")])])
      = Return (Some (ModelType "Article")) /\
    schema_resolveType s (JsObj [("constructor", JsObj [("modelName", JsString "Post")])])
      = Return None.
Proof.
  destruct (compilable_returns Example.blog eq_refl) as [s Hs].
  exists s. split; [exact Hs|]. split.
  - exact (resolveType_by_model_name Example.blog s Hs eq_refl
             (JsObj [("constructor", JsObj [("modelName", JsString "Article")])])
             (JsObj [("modelName", JsString "Article")]) "Article" eq_refl eq_refl
             (or_introl eq_refl)).
  - exact (resolveType_by_model_name Example.blog s Hs eq_refl
             (JsObj [("constructor", JsObj [("modelName", JsString "Post")])])
             (JsObj [("modelName", JsString "Post")]) "Post" eq_refl eq_refl
             (or_intror eq_refl)).
Defined.

Lemma query_fields_witness :
  exists s,
    createGraphqlSchema Example.blog = Return s /\
    In "getComment" (keys (query s)).
Proof.
  destruct (compilable_returns Example.blog eq_refl) as [s Hs].
  exists s. split; [exact Hs|].
  apply (proj2 (query_fields_are_node_viewer_and_getters Example.blog s Hs "getComment")).
  right. right. exists Example.Comment. split; [simpl; tauto | reflexivity].
Defined.

(** The argument is the global id of Article 1; the model gets the id 1. *)
Lemma getter_fields_witness :
  exists s,
    createGraphqlSchema Example.blog = Return s /\
    (forall f, get (query s) "getArticle" = Some f ->
       exists m, In m (visitedModels Example.blog) /\
                 f = Field (Some (ModelType (getName m))) (Some (getGraphqlItemArgs m))
                       (Some (Function (getItemResolver m)))) /\
    getItemResolver Example.Article [JsUndefined; JsObj [("id", JsString "QXJ0aWNsZTox")]] =
    resolveItem Example.Article
      {| params_id := Some (JsString "1"); params_property := None |}
      [JsUndefined; JsObj [("id", JsString "QXJ0aWNsZTox")]] /\
    getItemResolver Example.Article [JsUndefined; JsObj []] =
    resolveItem Example.Article emptyParams [JsUndefined; JsObj []].
Proof.
  destruct (compilable_returns Example.blog eq_refl) as [s Hs].
  destruct (getter_fields_decode_the_id Example.blog s Hs) as [Hfield [Hnone Hsome]].
  exists s. split; [exact Hs|]. split; [|split].
  - intros f Hf.
    destruct (Hfield "getArticle" f Hf) as [m [Hm [_ Heq]]]; [discriminate | discriminate |].
    exists m. now split.
  - exact (Hsome Example.Article JsUndefined (JsObj [("id", JsString "QXJ0aWNsZTox")]) []
             (JsString "QXJ0aWNsZTox")
             (JsObj [("type", JsString "Article"); ("id", JsString "1")])
             (JsString "1") eq_refl eq_refl eq_refl eq_refl).
  - exact (Hnone Example.Article JsUndefined (JsObj []) [] JsUndefined eq_refl eq_refl).
Defined.

Lemma placeholders_witness :
  exists s,
    createGraphqlSchema Example.blog = Return s /\
    exists fields, get (schema_modelFields s) "Article" = Some fields.
Proof.
  destruct (compilable_returns Example.blog eq_refl) as [s Hs].
  exists s. split; [exact Hs|].
  exact (proj1 (placeholders_are_filled Example.blog s Hs) Example.Article
           (or_introl eq_refl)).
Defined.

(** Both models are flagged as viewer, and one of them is named user. *)
Lemma viewer_fields_witness :
  exists s fields,
    createGraphqlSchema Example.twoViewers = Return s /\
    viewerRootFields (query s) = Some fields /\
    In "allAdmins" (keys fields) /\
    In "user" (keys fields).
Proof.
  destruct (compilable_returns Example.twoViewers eq_refl) as [s Hs].
  destruct (viewer_fields_are_id_user_and_lists Example.twoViewers s Hs)
    as [fields [Hroot Hkeys]].
  exists s, fields. split; [exact Hs|]. split; [exact Hroot|]. split.
  - apply Hkeys. right. right. exists Example.SecondViewer.
    split; [simpl; tauto | reflexivity].
  - apply Hkeys. right. left. split; reflexivity.
Defined.

Lemma list_all_fields_witness :
  exists s fields,
    createGraphqlSchema Example.blog = Return s /\
    viewerRootFields (query s) = Some fields /\
    forall f, get fields "allArticles" = Some f ->
      exists m, In m (visitedModels Example.blog) /\
                edgeNodeType f = Some (ModelType (getName m)).
Proof.
  destruct (compilable_returns Example.blog eq_refl) as [s Hs].
  destruct (list_all_fields_wrap_model_types Example.blog s Hs)
    as [fields [Hroot Hall]].
  exists s, fields. split; [exact Hs|]. split; [exact Hroot|].
  intros f Hf.
  destruct (Hall "allArticles" f Hf) as [m [target [Hm [_ [_ [_ [_ [Hnode _]]]]]]]];
    [discriminate | discriminate |].
  exists m. now split.
Defined.

(** The viewer model is admin, and the [user] field has the type of the model
    user. *)
Lemma user_field_witness :
  option_map getName (viewerModel (prepareModelTypes Example.twoViewers)) = Some "admin" /\
  exists s fields,
    createGraphqlSchema Example.twoViewers = Return s /\
    viewerRootFields (query s) = Some fields /\
    forall f, get fields "user" = Some f -> fieldType f = Some (ModelType "user").
Proof.
  split; [reflexivity|].
  destruct (compilable_returns Example.twoViewers eq_refl) as [s Hs].
  destruct (user_field_has_the_type_named_user Example.twoViewers s Hs eq_refl)
    as [fields [Hroot Huser]].
  exists s, fields. split; [exact Hs|]. split; [exact Hroot|]. exact Huser.
Defined.

Lemma viewer_root_witness :
  exists s fields,
    createGraphqlSchema Example.twoViewers = Return s /\
    viewerRootFields (query s) = Some fields /\
    hasField fields "id" = true /\
    hasField fields "allUsers" = true /\
    hasField fields "allAdmins" = true /\
    hasField fields "user" = true.
Proof.
  destruct (compilable_returns Example.twoViewers eq_refl) as [s Hs].
  destruct (viewer_root_always_exposed Example.twoViewers s Hs)
    as [fields [Hroot [Hid [Hall Huser]]]].
  exists s, fields. split; [exact Hs|]. split; [exact Hroot|]. split; [exact Hid|].
  split; [|split].
  - exact (Hall Example.FirstViewer (or_introl eq_refl)).
  - exact (Hall Example.SecondViewer (or_intror (or_introl eq_refl))).
  - exact Huser.
Defined.

Lemma viewer_echo_witness :
  exists s v,
    createGraphqlSchema Example.blog = Return s /\
    get (query s) "viewer" = Some v /\
    forall k cfg, get (mutation s) k = Some cfg -> get (outputFields cfg) "viewer" = Some v.
Proof.
  destruct (compilable_returns Example.blog eq_refl) as [s Hs].
  destruct (every_mutation_echoes_the_viewer Example.blog s Hs eq_refl)
    as [v [Hq Hecho]].
  exists s, v. split; [exact Hs|]. now split.
Defined.

Lemma removedId_throws_witness :
  (exists message,
     removedIdResolver [Example.payloadWithoutResult] = Throw (TypeError message)) /\
  forall model, successResolver model [Example.payloadWithoutResult] = Return JsNull.
Proof.
  exact (removedId_throws_without_result Example.payloadWithoutResult JsUndefined []
           eq_refl (or_intror eq_refl)).
Defined.

Lemma output_fields_witness :
  keys (outputFields (mutationConfig "remove" Example.Post [] (Some nodeField)))
    = ["errors"; "viewer"; "removedId"] /\
  keys (outputFields (mutationConfig "create" Example.Post [] (Some nodeField)))
    = ["errors"; "Post"; "viewer"].
Proof.
  split.
  - apply (output_fields_in_order "remove" Example.Post [] nodeField);
      first [discriminate | reflexivity].
  - apply (output_fields_in_order "create" Example.Post [] nodeField);
      first [discriminate | reflexivity].
Defined.

Lemma custom_resolver_witness :
  get Sample.profileFields "name" =
    Some (Field (Some GraphQLString) None (Some (Function Sample.customName))) /\
  get Sample.profileFields "id" =
    Some (fieldToGraphqlType "id" (Example.scalar TypeId) Sample.profileSchema).
Proof.
  split.
  - exact (proj1 (custom_resolver_replaces_resolve_only [] Sample.profileSchema []
                    Sample.profileFields "name" (Example.scalar TypeString)
                    eq_refl eq_refl eq_refl eq_refl)
             _ Sample.customName eq_refl eq_refl).
  - apply (proj1 (proj2 (custom_resolver_replaces_resolve_only [] Sample.profileSchema []
                    Sample.profileFields "id" (Example.scalar TypeId)
                    eq_refl eq_refl eq_refl eq_refl))).
    right. eexists. split; reflexivity.
Defined.

Lemma hasMany_field_witness :
  exists f target,
    get Example.articleFields "comments" = Some f /\
    get Example.blog "Comment" = Some (ModelClass target) /\
    edgeNodeType f = Some (ModelType "Comment") /\
    fieldArgs f = Some (getGraphqlListArgs target) /\
    forall arguments,
      callResolver f arguments =
      Some (resolveHasMany target
              {| params_id := None;
                 params_property := Some (Example.related "hasMany" "Comment") |}
              arguments).
Proof.
  exact (hasMany_field_delegates_to_referenced_model Example.blog (schema Example.Article)
           Example.blogTypes Example.articleFields "comments"
           (Example.related "hasMany" "Comment") eq_refl eq_refl eq_refl).
Defined.

Lemma hasMany_nodes_witness :
  exists s fields f,
    createGraphqlSchema Example.blog = Return s /\
    get (schema_modelFields s) "Article" = Some fields /\
    get fields "comments" = Some f /\
    edgeNodeType f = Some (ModelType "Comment").
Proof.
  destruct (compilable_returns Example.blog eq_refl) as [s Hs].
  destruct (hasMany_nodes_are_model_types Example.blog s Example.Article "comments"
              (Example.related "hasMany" "Comment") eq_refl Hs (or_introl eq_refl)
              eq_refl eq_refl)
    as [fields [f [Hfields [Hf Hnode]]]].
  exists s, fields, f. now repeat split.
Defined.

Lemma start_stops_witness :
  start (Fulfilled Sample.danglingModules) (Fulfilled Sample.sources) Sample.connected =
  {| server_models := Some Example.danglings; server_graphqlSchema := None;
     server_graphqlRoute := false; server_app := false; server_listening := false;
     server_consoleErrors :=
       [thrownOf (TypeError "Cannot read property 'getGraphqlListArgs' of undefined")] |}.
Proof.
  exact (start_stops_when_the_schema_does_not_compile Sample.danglingModules
           Example.danglings _ (Fulfilled Sample.sources) Sample.connected eq_refl eq_refl).
Defined.

(** The blog starts without config/sources.js, and does not listen when the
    connection is refused. *)
Example start_with_and_without_sources :
  server_listening
    (start (Fulfilled Sample.blogModules) (Rejected Sample.moduleNotFound) Sample.connected)
    = true /\
  server_listening
    (start (Fulfilled Sample.blogModules) (Fulfilled Sample.sources) Sample.refused)
    = false /\
  server_consoleErrors
    (start (Fulfilled Sample.blogModules) (Fulfilled Sample.sources) Sample.refused)
    = [Sample.connectionRefused; Sample.connectionRefused].
Proof. repeat split; reflexivity. Qed.

End ConcreteServer.
